(** * Dataset utilities: format converter, dataset normalizer, splitter/uploader

    A shallow embedding of the three command-line scripts

      - [convert_jsonl_to_parquet.py]                         (module [Converter])
      - [examples/data_preprocess/olympic_dataset.py]          (module [Normalizer])
      - [examples/data_preprocess/split_and_upload_olympic.py] (module [Splitter])

    Every script is a straight line of effects (console output, files,
    the dataset hub).  Each module has a [world] record holding exactly the
    state its script touches, and the script is a computation in a state
    monad with exceptions over that world.  The world is kept when an
    exception is raised, so that what a failed run left behind can be
    inspected.

    Third-party libraries (json, pandas/pyarrow, pathlib, datasets, numpy)
    are collaborators: they enter as [Variable]s of a [Section], with the
    part of their documented contract that a proof uses as a [Hypothesis]. *)

From Stdlib Require Import ZArith QArith Qround List Permutation Lia String Ascii.
From stdpp Require Import gmap strings list pretty.

(** ** Exceptions and the script monad *)

(** Why a [ValueError] was raised. *)
Inductive value_error : Type :=
  | TokenRequired
  | NoTrainSplit (splits : list string)
  | NegativeSeed (seed : Z)
  | TestSizeOutOfRange
  | EmptyTrainSet.

Inductive exn : Type :=
  | ValueError (why : value_error)
  | KeyError (key : string)
  | FileNotFoundError (path : string)
  | FileExistsError (path : string)
  | SameFileError (path : string)
  | UnicodeDecodeError
  | JSONDecodeError
  | ZeroDivisionError
  | DatasetNotFoundError (repo : string)
  | HubHTTPError (repo : string)
  | RemoteStorageError
  | PyError (class_name : string).

Inductive result (A : Type) : Type :=
  | Ok (a : A)
  | Raise (e : exn).
Arguments Ok {A} a.
Arguments Raise {A} e.

Definition is_ok {A} (r : result A) : bool :=
  match r with Ok _ => true | Raise _ => false end.

(** A computation reads and updates a world of type [W]; it either returns a
    value or raises, and hands back the world it reached in both cases. *)
Definition M (W A : Type) : Type := W -> result A * W.

Definition ret {W A} (a : A) : M W A := fun w => (Ok a, w).

Definition bind {W A B} (c : M W A) (k : A -> M W B) : M W B :=
  fun w =>
    match c w with
    | (Ok a, w') => k a w'
    | (Raise e, w') => (Raise e, w')
    end.

Definition raise {W A} (e : exn) : M W A := fun w => (Raise e, w).
Definition gets {W A} (f : W -> A) : M W A := fun w => (Ok (f w), w).
Definition modify {W} (f : W -> W) : M W unit := fun w => (Ok tt, f w).

Declare Scope script_scope.
Delimit Scope script_scope with script.
Notation "x <- c ;; k" := (bind c (fun x => k))
  (at level 100, c at next level, k at level 200, right associativity) : script_scope.
Notation "c ;; k" := (bind c (fun _ => k))
  (at level 100, k at level 200, right associativity) : script_scope.
Open Scope script_scope.

(** [for x in xs: body x] *)
Fixpoint for_each {W A} (xs : list A) (body : A -> M W unit) : M W unit :=
  match xs with
  | [] => ret tt
  | x :: xs' => body x ;; for_each xs' body
  end.

Lemma bind_ok {W A B} (c : M W A) (k : A -> M W B) w a w' :
  c w = (Ok a, w') -> bind c k w = k a w'.
Proof. intros H. unfold bind. now rewrite H. Qed.

Lemma bind_raise {W A B} (c : M W A) (k : A -> M W B) w e w' :
  c w = (Raise e, w') -> bind c k w = (Raise e, w').
Proof. intros H. unfold bind. now rewrite H. Qed.

(** The double quote and the line feed, as one-character strings. *)
Definition dq : string := String "034"%char EmptyString.
Definition nl : string := String "010"%char EmptyString.

(** * Format converter ([convert_jsonl_to_parquet.py]) *)

Module Converter.

(** Decoded text is a Python [str]: the list of its code points. *)
Definition text : Type := list N.

Definition text_of_string (s : string) : text :=
  map N_of_ascii (list_ascii_of_string s).

(** [str.isspace] for one code point, the set [str.strip()] removes:
    U+0009..U+000D, U+001C..U+0020, U+0085, U+00A0, U+1680,
    U+2000..U+200A, U+2028, U+2029, U+202F, U+205F, U+3000. *)
Definition isspace (c : N) : bool :=
  (((9 <=? c) && (c <=? 13)) || ((28 <=? c) && (c <=? 32))
   || (c =? 133) || (c =? 160) || (c =? 5760)
   || ((8192 <=? c) && (c <=? 8202))
   || (c =? 8232) || (c =? 8233) || (c =? 8239) || (c =? 8287)
   || (c =? 12288))%N.

Fixpoint lstrip (s : text) : text :=
  match s with
  | c :: s' => if isspace c then lstrip s' else s
  | [] => []
  end.

Definition rstrip (s : text) : text := rev (lstrip (rev s)).

(** [line.strip()] *)
Definition strip (s : text) : text := rstrip (lstrip s).

(** Bytes of the UTF-8 encoding of one code point, and of a whole text
    file.  Newline translation can only make the size on disk larger than
    this count; both are zero for the same files. *)
Definition utf8_len (c : N) : Z :=
  if (c <? 128)%N then 1
  else if (c <? 2048)%N then 2
  else if (c <? 65536)%N then 3
  else 4.

Definition line_size (line : text) : Z :=
  fold_right (fun c n => utf8_len c + n)%Z 0%Z line.

Definition text_size (lines : list text) : Z :=
  fold_right (fun line n => line_size line + n)%Z 0%Z lines.

(** What [df.to_parquet] comes to: the content of the file it wrote, or
    the exception it raised, with what it left at the path when it had
    opened the file by then. *)
Inductive written (snapshot : Type) : Type :=
  | Written (s : snapshot)
  | Refused (e : exn) (remains : option snapshot).
Arguments Written {snapshot} s.
Arguments Refused {snapshot} e remains.

(** A stand-in for [json.loads], used to run the converter on examples: a
    stripped line parses when it opens with a brace and closes with one. *)
Definition brace_loads (line : text) : result text :=
  match line, rev line with
  | 123%N :: _, 125%N :: _ => Ok line
  | _, _ => Raise JSONDecodeError
  end.

(** Stand-ins for pandas and pyarrow on examples.  A frame is the list of
    its records, with no column index to show.  The file written holds
    the records, except that a frame of empty objects only has no column,
    and a table without columns has no rows.  Its size is eight bytes of
    magic numbers plus one per row. *)
Definition list_frame (data : list text) : result (list text) := Ok data.
Definition no_columns (df : list text) : list string := [].

Definition is_empty_object (v : text) : bool := bool_decide (v = [123%N; 125%N]).

Definition rows_written (df : list text) : list text :=
  if forallb is_empty_object df then [] else df.

Definition list_writer (df : list text) : written (list text) := Written (rows_written df).
Definition magic_size (rows : list text) : Z := 8 + Z.of_nat (length rows).

(** A stand-in for [Path.with_suffix] on a plain file name: what follows
    the last dot, if there is one after the first character, is replaced. *)
Fixpoint has_dot (s : string) : bool :=
  match s with
  | EmptyString => false
  | String c s' => bool_decide (c = "."%char) || has_dot s'
  end.

Fixpoint stem (s : string) : string :=
  match s with
  | EmptyString => EmptyString
  | String c s' =>
      if bool_decide (c = "."%char) && negb (has_dot s') then EmptyString
      else String c (stem s')
  end.

Definition swap_suffix (p suffix : string) : string :=
  match p with
  | EmptyString => suffix
  | String c p' => String c (stem p') +:+ suffix
  end.

Section WithLibraries.

(** [json.loads]: the parsed value, [JSONDecodeError] for text that is not
    JSON, or another exception of the parser ([RecursionError] for text
    nested too deep, [ValueError] for an integer literal of too many
    digits). *)
Variable json : Type.
Variable json_loads : text -> result json.

(** pandas: [pd.DataFrame(data)], which may refuse the records; [len(df)]
    and [df.columns] of the frame it builds. *)
Variable frame : Type.
Variable data_frame : list json -> result frame.
Variable frame_rows : frame -> nat.
Variable columns : frame -> list string.

(** pyarrow: what [df.to_parquet(path, index=False, engine='pyarrow')]
    comes to.  A file it wrote has [parquet_rows] rows and [parquet_size]
    bytes, a positive number since a columnar file opens and closes with a
    magic number. *)
Variable snapshot : Type.
Variable write_parquet : frame -> written snapshot.
Variable parquet_rows : snapshot -> nat.
Variable parquet_size : snapshot -> Z.
Hypothesis parquet_size_pos :
  forall df s, write_parquet df = Written s -> (0 < parquet_size s)%Z.

(** [Path(p).with_suffix(s)], as a string.  pathlib raises only for a path
    whose final component is empty ([.] or [/]); such a path names a
    directory, which the file system below does not hold. *)
Variable with_suffix : string -> string -> string.

(** Files are regular files: line-delimited text, as the lines a text-mode
    iterator yields, or what pyarrow put at a path. *)
Inductive file : Type :=
  | TextFile (lines : list text)
  | ParquetFile (s : snapshot).

(** What the script prints: one constructor per diagnostic ([Sample] once
    per sampled column, [Completed] and [Banner] for their three lines). *)
Inductive message : Type :=
  | Reading (path : string)
  | ParseWarning (line_num : nat) (path : string)
  | Loaded (n : nat) (path : string)
  | InputMissing (path : string)
  | NoData (path : string)
  | Converting
  | Shape (n_rows n_cols : nat)
  | Columns (cols : list string)
  | SampleHeader
  | Sample (col : string)
  | Saving (path : string)
  | Completed (jsonl_size parquet_size : Z)
  | Banner (path : string)
  | Skipping (path : string).

Record world : Type := World {
  fs : gmap string file;
  out : list message
}.

Definition print (m : message) : M world unit :=
  modify (fun w => World (fs w) (out w ++ [m])).

Definition lift {A} (r : result A) : M world A := fun w => (r, w).

(** [Path(p).exists()] *)
Definition path_exists (p : string) : M world bool :=
  gets (fun w => bool_decide (is_Some (fs w !! p))).

(** [open(p, 'r', encoding='utf-8')] and the iteration over its lines.  A
    columnar snapshot is binary and does not decode as text. *)
Definition open_text (p : string) : M world (list text) :=
  fun w =>
    match fs w !! p with
    | Some (TextFile lines) => (Ok lines, w)
    | Some (ParquetFile _) => (Raise UnicodeDecodeError, w)
    | None => (Raise (FileNotFoundError p), w)
    end.

(** [Path(p).stat().st_size] *)
Definition st_size (p : string) : M world Z :=
  fun w =>
    match fs w !! p with
    | Some (TextFile lines) => (Ok (text_size lines), w)
    | Some (ParquetFile s) => (Ok (parquet_size s), w)
    | None => (Raise (FileNotFoundError p), w)
    end.

(** [df.to_parquet(p, index=False, engine='pyarrow')]: an exception of the
    writer is not caught. *)
Definition to_parquet (p : string) (df : frame) : M world unit :=
  fun w =>
    match write_parquet df with
    | Written s => (Ok tt, World (<[p := ParquetFile s]> (fs w)) (out w))
    | Refused e (Some s) => (Raise e, World (<[p := ParquetFile s]> (fs w)) (out w))
    | Refused e None => (Raise e, w)
    end.

(** The body of the [for line_num, line in enumerate(f, 1)] loop of
    [read_jsonl], with [data] threaded through.  [except] names
    [json.JSONDecodeError] only. *)
Fixpoint read_lines (file_path : string) (lines : list text) (line_num : nat)
    (data : list json) : M world (list json) :=
  match lines with
  | [] => ret data
  | line :: rest =>
      match strip line with
      | [] => read_lines file_path rest (S line_num) data
      | c :: cs =>
          match json_loads (c :: cs) with
          | Ok v => read_lines file_path rest (S line_num) (data ++ [v])
          | Raise JSONDecodeError =>
              print (ParseWarning line_num file_path) ;;
              read_lines file_path rest (S line_num) data
          | Raise e => raise e
          end
      end
  end.

Definition read_jsonl (file_path : string) : M world (list json) :=
  print (Reading file_path) ;;
  lines <- open_text file_path ;;
  data <- read_lines file_path lines 1 [] ;;
  print (Loaded (length data) file_path) ;;
  ret data.

Definition convert_jsonl_to_parquet (jsonl_path : string)
    (parquet_path : option string) : M world unit :=
  let parquet_path :=
    match parquet_path with
    | None => with_suffix jsonl_path ".parquet"
    | Some p => p
    end in
  present <- path_exists jsonl_path ;;
  if negb present then print (InputMissing jsonl_path)
  else
    data <- read_jsonl jsonl_path ;;
    match data with
    | [] => print (NoData jsonl_path)
    | _ :: _ =>
        print Converting ;;
        df <- lift (data_frame data) ;;
        print (Shape (frame_rows df) (length (columns df))) ;;
        print (Columns (columns df)) ;;
        print SampleHeader ;;
        for_each (firstn 3 (columns df)) (fun col => print (Sample col)) ;;
        print (Saving parquet_path) ;;
        to_parquet parquet_path df ;;
        parquet_bytes <- st_size parquet_path ;;
        jsonl_bytes <- st_size jsonl_path ;;
        if (jsonl_bytes =? 0)%Z then raise ZeroDivisionError
        else print (Completed jsonl_bytes parquet_bytes)
    end.

(** The parsed command line: the two positionals and [--batch].  An empty
    [input] is falsy, like an absent one. *)
Record args : Type := Args {
  input : option string;
  output : option string;
  batch : bool
}.

Definition main (a : args) : M world unit :=
  match batch a, input a with
  | false, Some (String c i) => convert_jsonl_to_parquet (String c i) (output a)
  | _, _ =>
      for_each ["train.jsonl"; "test.jsonl"] (fun file_path =>
        present <- path_exists file_path ;;
        if present then
          print (Banner file_path) ;;
          convert_jsonl_to_parquet file_path None
        else print (Skipping file_path))
  end.

(** *** What a line is, in the words of the specification

    These definitions do not go through [strip]: the payload of a line is
    what is left of it without the white space at its two ends, and a line
    is blank when all of it is white space.  A line that is not blank is
    valid when [json.loads] parses its payload, malformed when
    [json.loads] rejects it as not being JSON, and unreadable when the
    parser fails in another way. *)

Fixpoint drop_leading_space (s : text) : text :=
  match s with
  | [] => []
  | c :: s' => if isspace c then drop_leading_space s' else c :: s'
  end.

Fixpoint drop_trailing_space (s : text) : text :=
  match s with
  | [] => []
  | c :: s' =>
      match drop_trailing_space s' with
      | [] => if isspace c then [] else [c]
      | kept => c :: kept
      end
  end.

Definition payload (line : text) : text :=
  drop_trailing_space (drop_leading_space line).

Inductive line_kind : Type :=
  | Blank
  | Valid (v : json)
  | Malformed
  | Unreadable (e : exn).

Definition classify (line : text) : line_kind :=
  if forallb isspace line then Blank
  else match json_loads (payload line) with
       | Ok v => Valid v
       | Raise JSONDecodeError => Malformed
       | Raise e => Unreadable e
       end.

Definition is_valid (line : text) : bool :=
  match classify line with Valid _ => true | _ => false end.

Definition is_malformed (line : text) : bool :=
  match classify line with Malformed => true | _ => false end.

Definition readable (line : text) : Prop :=
  forall e, classify line <> Unreadable e.

(** The records of the valid lines, in file order. *)
Definition records (lines : list text) : list json :=
  omap (fun line => match classify line with Valid v => Some v | _ => None end) lines.

Definition count {A} (f : A -> bool) (l : list A) : nat := length (List.filter f l).

Definition is_parse_warning (m : message) : bool :=
  match m with ParseWarning _ _ => true | _ => false end.

(** One warning for every malformed line, with the number of the line in
    the file, counted from 1 with the blank lines. *)
Definition expected_warnings (file_path : string) (lines : list text) : list message :=
  omap (fun '(k, line) => if is_malformed line then Some (ParseWarning k file_path) else None)
       (combine (seq 1 (length lines)) lines).

(** The output path [convert_jsonl_to_parquet] settles on. *)
Definition target (jsonl_path : string) (parquet_path : option string) : string :=
  match parquet_path with
  | None => with_suffix jsonl_path ".parquet"
  | Some p => p
  end.

(** What reading a file comes to: the records of the valid lines, unless
    some line is unreadable; then the exception of the first such line. *)
Fixpoint read_outcome (lines : list text) : result (list json) :=
  match lines with
  | [] => Ok []
  | line :: rest =>
      match classify line with
      | Unreadable e => Raise e
      | Valid v =>
          match read_outcome rest with
          | Ok vs => Ok (v :: vs)
          | Raise e => Raise e
          end
      | Blank | Malformed => read_outcome rest
      end
  end.

(** The warnings printed until then. *)
Fixpoint warnings_from (file_path : string) (line_num : nat) (lines : list text)
    : list message :=
  match lines with
  | [] => []
  | line :: rest =>
      match classify line with
      | Unreadable _ => []
      | Malformed => ParseWarning line_num file_path :: warnings_from file_path (S line_num) rest
      | Blank | Valid _ => warnings_from file_path (S line_num) rest
      end
  end.

(** What converting a text file of these lines comes to. *)
Inductive conversion : Type :=
  | Aborted (e : exn) (remains : option snapshot)
  | NothingToWrite
  | Converted (s : snapshot).

Definition conversion_of (lines : list text) : conversion :=
  match read_outcome lines with
  | Raise e => Aborted e None
  | Ok [] => NothingToWrite
  | Ok (v :: vs) =>
      match data_frame (v :: vs) with
      | Raise e => Aborted e None
      | Ok df =>
          match write_parquet df with
          | Refused e remains => Aborted e remains
          | Written s => Converted s
          end
      end
  end.

Definition outcome (c : conversion) : result unit :=
  match c with
  | Aborted e _ => Raise e
  | NothingToWrite | Converted _ => Ok tt
  end.

(** The files after a conversion to [path] that came to [c]. *)
Definition kept (c : conversion) (path : string) (files : gmap string file)
    : gmap string file :=
  match c with
  | Converted s | Aborted _ (Some s) => <[path := ParquetFile s]> files
  | NothingToWrite | Aborted _ None => files
  end.

(** What converting the file at [path], if it is a text file, comes to. *)
Definition file_conversion (files : gmap string file) (path : string) : conversion :=
  match files !! path with
  | Some (TextFile lines) => conversion_of lines
  | _ => NothingToWrite
  end.


(** *** [strip] against the payload *)

Lemma lstrip_all_space (s : text) : forallb isspace s = true -> lstrip s = [].
Proof.
  induction s as [|c s IH]; cbn; [reflexivity|].
  destruct (isspace c); cbn; [exact IH | discriminate].
Qed.

Lemma forallb_lstrip (s : text) : forallb isspace (lstrip s) = forallb isspace s.
Proof.
  induction s as [|c s IH]; cbn; [reflexivity|].
  destruct (isspace c) eqn:E; cbn; [exact IH | now rewrite E].
Qed.

Lemma forallb_rev_space (s : text) : forallb isspace (rev s) = forallb isspace s.
Proof.
  induction s as [|c s IH]; cbn; [reflexivity|].
  rewrite forallb_app, IH. cbn. rewrite andb_true_r. apply andb_comm.
Qed.

Lemma lstrip_app (a b : text) :
  lstrip (a ++ b) = if forallb isspace a then lstrip b else lstrip a ++ b.
Proof.
  induction a as [|c a IH]; cbn; [reflexivity|].
  destruct (isspace c); cbn; [exact IH | reflexivity].
Qed.

Lemma lstrip_leading (s : text) : lstrip s = drop_leading_space s.
Proof.
  induction s as [|c s IH]; cbn; [reflexivity|].
  destruct (isspace c); [exact IH | reflexivity].
Qed.

Lemma drop_trailing_nil (s : text) :
  drop_trailing_space s = [] <-> forallb isspace s = true.
Proof.
  induction s as [|c s IH]; cbn; [tauto|].
  destruct (drop_trailing_space s) as [|k kept].
  - rewrite (proj1 IH eq_refl), andb_true_r.
    destruct (isspace c); split; intros H; congruence.
  - split; [discriminate|]. intros H. apply andb_true_iff in H as [_ H].
    apply IH in H. discriminate.
Qed.

Lemma rstrip_trailing (s : text) : rstrip s = drop_trailing_space s.
Proof.
  unfold rstrip. induction s as [|c s IH]; [reflexivity|].
  cbn [rev drop_trailing_space]. rewrite lstrip_app, forallb_rev_space.
  destruct (forallb isspace s) eqn:Hs.
  - rewrite (proj2 (drop_trailing_nil s) Hs). cbn.
    destruct (isspace c); reflexivity.
  - rewrite rev_app_distr, IH. cbn.
    destruct (drop_trailing_space s) as [|k kept] eqn:Hk; [|reflexivity].
    apply drop_trailing_nil in Hk. congruence.
Qed.

(** [line.strip()] is the payload of the line. *)
Lemma strip_payload (line : text) : strip line = payload line.
Proof. unfold strip, payload. now rewrite rstrip_trailing, lstrip_leading. Qed.

Lemma payload_nil (line : text) : payload line = [] <-> forallb isspace line = true.
Proof.
  unfold payload. rewrite drop_trailing_nil, <- lstrip_leading. now rewrite forallb_lstrip.
Qed.

Lemma drop_leading_spec (s : text) :
  exists pre, s = pre ++ drop_leading_space s
              /\ forallb isspace pre = true
              /\ forall c r, drop_leading_space s = c :: r -> isspace c = false.
Proof.
  induction s as [|c s (pre & Hs & Hpre & Hhd)]; cbn.
  - exists []. repeat split. discriminate.
  - destruct (isspace c) eqn:Hc.
    + exists (c :: pre). cbn. rewrite Hc, Hpre. split; [now f_equal|]. auto.
    + exists []. repeat split. intros c' r [= <- _]. exact Hc.
Qed.

Lemma drop_trailing_spec (s : text) :
  exists post, s = drop_trailing_space s ++ post
               /\ forallb isspace post = true
               /\ (forall c r, s = c :: r -> isspace c = false ->
                     exists r', drop_trailing_space s = c :: r')
               /\ forall front c, drop_trailing_space s = front ++ [c] -> isspace c = false.
Proof.
  induction s as [|c s (post & Hs & Hpost & _ & Hlast)]; cbn [drop_trailing_space].
  - exists []. repeat split; try discriminate.
    intros [|? ?] ? H; discriminate H.
  - destruct (drop_trailing_space s) as [|k kept] eqn:Hk.
    + cbn [app] in Hs. subst post. destruct (isspace c) eqn:Hc.
      * exists (c :: s). cbn [app forallb]. rewrite Hc, Hpost.
        split; [reflexivity|]. split; [reflexivity|]. split.
        -- intros c' r [= <- _] H. congruence.
        -- intros [|? ?] ? H; discriminate H.
      * exists s. split; [reflexivity|]. split; [exact Hpost|]. split.
        -- intros c' r [= <- _] _. eauto.
        -- intros [|? [|? ?]] c' H; try discriminate H. now injection H as <-.
    + exists post. split; [cbn [app]; now rewrite Hs at 1|]. split; [exact Hpost|]. split.
      * intros c' r [= <- _] _. eauto.
      * intros [|f front] c' H; [discriminate H|].
        injection H as -> H. now apply (Hlast front).
Qed.

(** The payload is the line without white space at its two ends: white
    space only comes before and after it, and it neither begins nor ends
    with white space. *)
Lemma payload_spec (line : text) :
  exists pre post,
    line = pre ++ payload line ++ post
    /\ forallb isspace pre = true /\ forallb isspace post = true
    /\ (forall c r, payload line = c :: r -> isspace c = false)
    /\ (forall front c, payload line = front ++ [c] -> isspace c = false).
Proof.
  unfold payload.
  destruct (drop_leading_spec line) as (pre & Hline & Hpre & Hhd).
  destruct (drop_trailing_spec (drop_leading_space line)) as (post & Hs & Hpost & Hkeep & Hlast).
  exists pre, post. split; [now rewrite <- Hs|]. split; [exact Hpre|]. split; [exact Hpost|].
  split; [|exact Hlast].
  intros c r Hp. destruct (drop_leading_space line) as [|c0 r0] eqn:Hd; [discriminate Hp|].
  pose proof (Hhd c0 r0 eq_refl) as Hc0.
  destruct (Hkeep c0 r0 eq_refl Hc0) as (r' & Hr'). rewrite Hr' in Hp.
  now injection Hp as <- _.
Qed.

(** *** Facts about the helpers *)

Lemma utf8_len_pos c : (0 < utf8_len c)%Z.
Proof. unfold utf8_len. repeat case_match; lia. Qed.

Lemma line_size_nonneg (line : text) : (0 <= line_size line)%Z.
Proof.
  induction line as [|c line IH]; cbn [line_size fold_right]; [lia|].
  fold (line_size line). pose proof (utf8_len_pos c). lia.
Qed.

Lemma text_size_cons l lines : text_size (l :: lines) = (line_size l + text_size lines)%Z.
Proof. reflexivity. Qed.

Lemma text_size_nonneg lines : (0 <= text_size lines)%Z.
Proof.
  induction lines as [|l lines IH]; [cbn; lia|].
  rewrite text_size_cons. pose proof (line_size_nonneg l). lia.
Qed.

(** A file that gives a record is not empty. *)
Lemma text_size_pos lines v vs : read_outcome lines = Ok (v :: vs) -> (0 < text_size lines)%Z.
Proof.
  revert v vs. induction lines as [|l lines IH]; intros v vs; [discriminate|].
  rewrite text_size_cons. pose proof (text_size_nonneg lines) as Hn.
  destruct l as [|c l].
  - cbn [read_outcome]. unfold classify. cbn [forallb]. intros H. apply IH in H.
    cbn [line_size fold_right]. lia.
  - intros _. cbn [line_size fold_right]. fold (line_size l).
    pose proof (utf8_len_pos c). pose proof (line_size_nonneg l). lia.
Qed.

Lemma count_app {A} (f : A -> bool) l1 l2 : count f (l1 ++ l2) = (count f l1 + count f l2)%nat.
Proof. unfold count. now rewrite List.filter_app, length_app. Qed.

Lemma count_warning_map {A} (f : A -> message) xs :
  (forall x, is_parse_warning (f x) = false) -> count is_parse_warning (map f xs) = 0%nat.
Proof.
  intros Hf. unfold count. induction xs as [|x xs IH]; simpl; [reflexivity|].
  now rewrite Hf.
Qed.

Lemma records_length lines : length (records lines) = count is_valid lines.
Proof.
  unfold records, count, is_valid.
  induction lines as [|l lines IH]; cbn [omap list_omap List.filter]; [reflexivity|].
  destruct (classify l); cbn [length]; auto.
Qed.

(** On a file without unreadable lines, reading gives the records of the
    valid lines and one warning per malformed line. *)
Lemma read_outcome_readable lines :
  Forall readable lines -> read_outcome lines = Ok (records lines).
Proof.
  induction 1 as [|l lines Hl _ IH]; [reflexivity|].
  unfold records in *. cbn [read_outcome omap list_omap].
  destruct (classify l) as [|v| |e] eqn:Hc; try exact IH.
  - now rewrite IH.
  - now destruct (Hl e).
Qed.

Lemma warnings_from_readable file_path lines : forall line_num,
  Forall readable lines ->
  warnings_from file_path line_num lines
    = omap (fun '(k, line) => if is_malformed line then Some (ParseWarning k file_path) else None)
           (combine (seq line_num (length lines)) lines).
Proof.
  induction lines as [|l lines IH]; intros line_num Hall; [reflexivity|].
  inversion Hall as [|? ? Hl Hall']; subst.
  cbn [warnings_from length seq combine omap list_omap]. unfold is_malformed at 1.
  destruct (classify l) as [|v| |e] eqn:Hc; try (now apply IH).
  - now rewrite IH.
  - now destruct (Hl e).
Qed.


Lemma print_appends m w : print m w = (Ok tt, World (fs w) (out w ++ [m])).
Proof. reflexivity. Qed.

Lemma for_each_print {A} (f : A -> message) xs w :
  for_each xs (fun x => print (f x)) w = (Ok tt, World (fs w) (out w ++ map f xs)).
Proof.
  revert w. induction xs as [|x xs IH]; intros [fs0 out0]; simpl.
  - unfold ret. now rewrite app_nil_r.
  - unfold bind, print, modify. simpl. rewrite IH. simpl.
    now rewrite <- app_assoc.
Qed.

(** What one line does to the loop of [read_jsonl], by the kind of the
    line. *)
Lemma strip_classify (line : text) :
  match strip line with
  | [] => classify line = Blank
  | c :: cs =>
      classify line = match json_loads (c :: cs) with
                      | Ok v => Valid v
                      | Raise JSONDecodeError => Malformed
                      | Raise e => Unreadable e
                      end
  end.
Proof.
  rewrite strip_payload. unfold classify.
  destruct (forallb isspace line) eqn:Hb.
  - now rewrite (proj2 (payload_nil line) Hb).
  - destruct (payload line) as [|c cs] eqn:Hp; [|reflexivity].
    apply payload_nil in Hp. congruence.
Qed.

(** The loop of [read_jsonl]: it leaves the files alone, prints the
    warnings, and returns the records after those it started with, or
    raises what the first unreadable line raises. *)
Lemma read_lines_run file_path lines : forall line_num data w,
  read_lines file_path lines line_num data w
    = (match read_outcome lines with
       | Ok vs => Ok (data ++ vs)
       | Raise e => Raise e
       end,
       World (fs w) (out w ++ warnings_from file_path line_num lines)).
Proof.
  induction lines as [|l lines IH]; intros line_num data [fs0 out0];
    cbn [read_lines read_outcome warnings_from].
  - unfold ret. now rewrite !app_nil_r.
  - pose proof (strip_classify l) as Hk.
    destruct (strip l) as [|c cs].
    + rewrite Hk. apply IH.
    + destruct (json_loads (c :: cs)) as [v|e]; rewrite Hk.
      * rewrite IH. cbn [fs out].
        destruct (read_outcome lines) as [vs|e]; [|reflexivity].
        now rewrite <- app_assoc.
      * destruct e; try (unfold raise; now rewrite app_nil_r).
        erewrite bind_ok by apply print_appends. cbn beta.
        rewrite IH. cbn [fs out]. now rewrite <- app_assoc.
Qed.

Lemma read_jsonl_run file_path lines w :
  fs w !! file_path = Some (TextFile lines) ->
  read_jsonl file_path w
    = (read_outcome lines,
       World (fs w)
             (out w ++ [Reading file_path] ++ warnings_from file_path 1 lines
                ++ match read_outcome lines with
                   | Ok vs => [Loaded (length vs) file_path]
                   | Raise _ => []
                   end)).
Proof.
  intros Hf. unfold read_jsonl.
  erewrite bind_ok by apply print_appends. cbn beta.
  erewrite bind_ok by (unfold open_text; cbn [fs]; rewrite Hf; reflexivity).
  cbn beta. unfold bind at 1. rewrite read_lines_run. cbn [fs out app].
  destruct (read_outcome lines) as [vs|e].
  - erewrite bind_ok by apply print_appends. cbn beta. unfold ret. cbn [fs out].
    now rewrite <- !app_assoc.
  - rewrite app_nil_r. now rewrite <- !app_assoc.
Qed.

Lemma st_size_text p lines w :
  fs w !! p = Some (TextFile lines) -> st_size p w = (Ok (text_size lines), w).
Proof. intros H. unfold st_size. now rewrite H. Qed.

Lemma st_size_parquet p s w :
  fs w !! p = Some (ParquetFile s) -> st_size p w = (Ok (parquet_size s), w).
Proof. intros H. unfold st_size. now rewrite H. Qed.

(** One run of the conversion on a text file, as a single equation. *)
Lemma convert_run (jsonl_path : string) (parquet_path : option string)
    (w : world) (lines : list text) :
  fs w !! jsonl_path = Some (TextFile lines) ->
  exists rest,
    convert_jsonl_to_parquet jsonl_path parquet_path w
      = (outcome (conversion_of lines),
         World (kept (conversion_of lines) (target jsonl_path parquet_path) (fs w))
               (out w ++ [Reading jsonl_path] ++ warnings_from jsonl_path 1 lines ++ rest))
    /\ count is_parse_warning rest = 0%nat.
Proof.
  intros Hf.
  pose proof (read_jsonl_run jsonl_path lines w Hf) as Hread.
  unfold convert_jsonl_to_parquet. fold (target jsonl_path parquet_path).
  set (tgt := target jsonl_path parquet_path).
  erewrite bind_ok by (unfold path_exists, gets; reflexivity).
  rewrite Hf, bool_decide_eq_true_2 by eauto. cbn [negb].
  unfold conversion_of.
  destruct (read_outcome lines) as [[|v vs]|e] eqn:Hout.
  - erewrite bind_ok by exact Hread. cbn beta iota. rewrite print_appends. cbn [fs out outcome kept].
    exists [Loaded (length (@nil json)) jsonl_path; NoData jsonl_path]. split; [|reflexivity].
    now rewrite <- !app_assoc.
  - erewrite bind_ok by exact Hread. cbn beta iota.
    erewrite bind_ok by apply print_appends. cbn [fs out].
    destruct (data_frame (v :: vs)) as [df|e] eqn:Hdf.
    2:{ erewrite bind_raise by (unfold lift; reflexivity). cbn [outcome kept].
        exists [Loaded (length (v :: vs)) jsonl_path; Converting]. split; [|reflexivity].
        now rewrite <- !app_assoc. }
    erewrite bind_ok by (unfold lift; reflexivity).
    do 3 (erewrite bind_ok by apply print_appends; cbn [fs out]).
    erewrite bind_ok by apply for_each_print. cbn [fs out].
    erewrite bind_ok by apply print_appends. cbn [fs out].
    destruct (write_parquet df) as [s|e [s|]] eqn:Hwr.
    2, 3: erewrite bind_raise by (unfold to_parquet; rewrite Hwr; reflexivity);
          cbn [fs out outcome kept];
          exists ([Loaded (length (v :: vs)) jsonl_path; Converting;
                   Shape (frame_rows df) (length (columns df)); Columns (columns df);
                   SampleHeader] ++ map Sample (firstn 3 (columns df)) ++ [Saving tgt]);
          (split;
           [now rewrite <- !app_assoc
           |rewrite !count_app, (count_warning_map Sample) by reflexivity; reflexivity]).
    erewrite bind_ok by (unfold to_parquet; rewrite Hwr; reflexivity). cbn [fs out].
    erewrite bind_ok
      by (apply st_size_parquet with (s := s); cbn [fs]; apply lookup_insert_eq).
    match goal with |- exists _, bind _ _ ?w0 = _ /\ _ => set (w1 := w0) end.
    assert (Hsz : exists n, (n <> 0)%Z /\ st_size jsonl_path w1 = (Ok n, w1)).
    { destruct (decide (tgt = jsonl_path)) as [Heq|Hne].
      - exists (parquet_size s). split.
        + pose proof (parquet_size_pos df s Hwr). lia.
        + apply st_size_parquet. subst w1. cbn [fs]. rewrite Heq. apply lookup_insert_eq.
      - exists (text_size lines). split.
        + pose proof (text_size_pos lines v vs Hout). lia.
        + apply st_size_text. subst w1. cbn [fs].
          rewrite lookup_insert_ne by exact Hne. exact Hf. }
    destruct Hsz as (n & Hn & Hst).
    erewrite bind_ok by exact Hst.
    apply Z.eqb_neq in Hn. rewrite Hn. rewrite print_appends. subst w1.
    cbn [fs out outcome kept].
    exists ([Loaded (length (v :: vs)) jsonl_path; Converting;
             Shape (frame_rows df) (length (columns df)); Columns (columns df);
             SampleHeader] ++ map Sample (firstn 3 (columns df))
            ++ [Saving tgt; Completed n (parquet_size s)]).
    split.
    + now rewrite <- !app_assoc.
    + rewrite !count_app, (count_warning_map Sample) by reflexivity. reflexivity.
  - erewrite bind_raise by exact Hread. cbn [outcome kept].
    exists []. split; [|reflexivity]. now rewrite !app_nil_r.
Qed.

(** The conversion of a path that does not hold a snapshot. *)
Lemma convert_files (file_path : string) (w : world) :
  (forall s, fs w !! file_path <> Some (ParquetFile s)) ->
  exists msgs,
    convert_jsonl_to_parquet file_path None w
      = (outcome (file_conversion (fs w) file_path),
         World (kept (file_conversion (fs w) file_path)
                     (with_suffix file_path ".parquet") (fs w))
               (out w ++ msgs)).
Proof.
  intros Hnp. unfold file_conversion.
  destruct (fs w !! file_path) as [[lines|s]|] eqn:Hf.
  - destruct (convert_run file_path None w lines Hf) as (rest & Hrun & _).
    eexists. exact Hrun.
  - now destruct (Hnp s).
  - exists [InputMissing file_path].
    unfold convert_jsonl_to_parquet, bind, path_exists, gets.
    rewrite Hf, bool_decide_eq_false_2 by (intros [? ?]; discriminate). reflexivity.
Qed.

(** C10: when the input path does not name an existing file,
    [convert_jsonl_to_parquet] prints the error diagnostic, returns
    normally and leaves every file as it was: nothing is written. *)
Theorem convert_missing_input (jsonl_path : string) (parquet_path : option string)
    (w : world) :
  fs w !! jsonl_path = None ->
  convert_jsonl_to_parquet jsonl_path parquet_path w
    = (Ok tt, World (fs w) (out w ++ [InputMissing jsonl_path])).
Proof.
  intros Hf. unfold convert_jsonl_to_parquet, bind, path_exists, gets.
  rewrite Hf. rewrite bool_decide_eq_false_2 by (intros [? ?]; discriminate).
  reflexivity.
Qed.


(** *** Further properties of the converter *)

(** X2: on a text file without unreadable lines, [read_jsonl] returns the
    records of the valid lines and prints exactly the opening line, then
    one warning for every malformed line, in file order and with the
    number of that line counted from 1 with the blank lines, and then the
    number of records loaded. *)
Theorem read_jsonl_reports_line_numbers (file_path : string) (lines : list text)
    (w : world) :
  fs w !! file_path = Some (TextFile lines) ->
  Forall readable lines ->
  read_jsonl file_path w
    = (Ok (records lines),
       World (fs w)
             (out w ++ [Reading file_path] ++ expected_warnings file_path lines
                ++ [Loaded (count is_valid lines) file_path])).
Proof.
  intros Hf Hall. rewrite (read_jsonl_run file_path lines w Hf).
  rewrite (read_outcome_readable lines Hall), records_length.
  now rewrite (warnings_from_readable file_path lines 1 Hall).
Qed.

Lemma st_size_world p w : snd (st_size p w) = w.
Proof. unfold st_size. now destruct (fs w !! p) as [[|]|]. Qed.

Lemma kept_other (c : conversion) (path p : string) (files : gmap string file) :
  p <> path -> kept c path files !! p = files !! p.
Proof.
  intros Hp. destruct c as [e [s|]| |s]; cbn [kept]; try reflexivity;
    now rewrite lookup_insert_ne by (intros E; apply Hp; symmetry; exact E).
Qed.

(** X3: whatever the input is and however the call ends, the conversion
    leaves every path other than its output path as it was. *)
Theorem convert_touches_only_target (jsonl_path : string) (parquet_path : option string)
    (w : world) (p : string) :
  p <> target jsonl_path parquet_path ->
  fs (snd (convert_jsonl_to_parquet jsonl_path parquet_path w)) !! p = fs w !! p.
Proof.
  intros Hp.
  assert (Hother : forall (files : gmap string file) s,
            <[target jsonl_path parquet_path := ParquetFile s]> files !! p = files !! p)
    by (intros files s; apply lookup_insert_ne; intros E; apply Hp; symmetry; exact E).
  unfold convert_jsonl_to_parquet. fold (target jsonl_path parquet_path).
  set (tgt := target jsonl_path parquet_path) in *.
  erewrite bind_ok by (unfold path_exists, gets; reflexivity).
  destruct (fs w !! jsonl_path) as [[lines|s]|] eqn:Hf.
  - rewrite bool_decide_eq_true_2 by eauto. cbn [negb].
    pose proof (read_jsonl_run jsonl_path lines w Hf) as Hread.
    destruct (read_outcome lines) as [[|v vs]|e].
    + erewrite bind_ok by exact Hread. reflexivity.
    + erewrite bind_ok by exact Hread. cbn beta iota.
      erewrite bind_ok by apply print_appends. cbn [fs out].
      destruct (data_frame (v :: vs)) as [df|e];
        [|erewrite bind_raise by (unfold lift; reflexivity); reflexivity].
      erewrite bind_ok by (unfold lift; reflexivity).
      do 3 (erewrite bind_ok by apply print_appends; cbn [fs out]).
      erewrite bind_ok by apply for_each_print. cbn [fs out].
      erewrite bind_ok by apply print_appends. cbn [fs out].
      destruct (write_parquet df) as [s|e [s|]] eqn:Hwr.
      2, 3: erewrite bind_raise by (unfold to_parquet; rewrite Hwr; reflexivity);
            cbn [snd fs]; solve [apply Hother | reflexivity].
      erewrite bind_ok by (unfold to_parquet; rewrite Hwr; reflexivity). cbn [fs out].
      erewrite bind_ok
        by (apply st_size_parquet with (s := s); cbn [fs]; apply lookup_insert_eq).
      cbn beta. unfold bind.
      match goal with |- context [st_size jsonl_path ?w0] =>
        pose proof (st_size_world jsonl_path w0) as Hw;
        destruct (st_size jsonl_path w0) as [[n|e] w2] end;
        cbn [snd] in Hw; subst w2;
        [destruct (n =? 0)%Z|]; cbn [fs snd raise print modify]; apply Hother.
    + erewrite bind_raise by exact Hread. reflexivity.
  - rewrite bool_decide_eq_true_2 by eauto. cbn [negb].
    erewrite bind_raise; cycle 1.
    { unfold read_jsonl. erewrite bind_ok by apply print_appends. cbn beta.
      eapply bind_raise. unfold open_text. cbn [fs]. rewrite Hf. reflexivity. }
    reflexivity.
  - rewrite bool_decide_eq_false_2 by (intros [? ?]; discriminate). reflexivity.
Qed.

(** X4: when the conversion of a text file, to an output path other than
    the input, ends normally, converting the same file a second time ends
    normally again and leaves exactly the files the first conversion
    left. *)
Theorem convert_twice_same_files (jsonl_path : string) (parquet_path : option string)
    (w w1 : world) (lines : list text) :
  fs w !! jsonl_path = Some (TextFile lines) ->
  target jsonl_path parquet_path <> jsonl_path ->
  convert_jsonl_to_parquet jsonl_path parquet_path w = (Ok tt, w1) ->
  exists w2,
    convert_jsonl_to_parquet jsonl_path parquet_path w1 = (Ok tt, w2)
    /\ fs w2 = fs w1.
Proof.
  intros Hf Hne Hfirst.
  destruct (convert_run jsonl_path parquet_path w lines Hf) as (rest1 & Hrun1 & _).
  rewrite Hrun1 in Hfirst. injection Hfirst as Hok <-.
  match goal with |- context [convert_jsonl_to_parquet _ _ ?w0] => set (w1 := w0) end.
  assert (Hf1 : fs w1 !! jsonl_path = Some (TextFile lines)).
  { subst w1. cbn [fs]. rewrite kept_other by (apply not_eq_sym, Hne). exact Hf. }
  destruct (convert_run jsonl_path parquet_path w1 lines Hf1) as (rest2 & Hrun2 & _).
  rewrite Hrun2, Hok. eexists. split; [reflexivity|].
  subst w1. cbn [fs].
  destruct (conversion_of lines) as [e [s|]| |s]; cbn [kept]; try reflexivity;
    apply insert_insert_eq.
Qed.

(** X5: in batch mode ([--batch], or no input path) the run handles
    [train.jsonl] and then [test.jsonl]: a file that is missing is skipped,
    a file that is there is converted to the path [with_suffix] gives.  An
    exception while [train.jsonl] is converted ends the run there, before
    [test.jsonl] is looked at; otherwise the run ends as the conversion of
    [test.jsonl] ends and leaves the files of the two conversions. *)
Theorem batch_converts_in_order (a : args) (w : world) :
  batch a = true \/ input a = None \/ input a = Some EmptyString ->
  (forall s, fs w !! "train.jsonl" <> Some (ParquetFile s)) ->
  (forall s, fs w !! "test.jsonl" <> Some (ParquetFile s)) ->
  with_suffix "train.jsonl" ".parquet" <> "test.jsonl" ->
  let first := file_conversion (fs w) "train.jsonl" in
  let second := file_conversion (fs w) "test.jsonl" in
  let after_first := kept first (with_suffix "train.jsonl" ".parquet") (fs w) in
  exists w',
    main a w = (match outcome first with Raise e => Raise e | Ok _ => outcome second end, w')
    /\ fs w' = match outcome first with
               | Raise _ => after_first
               | Ok _ => kept second (with_suffix "test.jsonl" ".parquet") after_first
               end.
Proof.
  intros Hmode Htrain Htest Hsuffix first second after_first.
  assert (Hmain : main a w
    = for_each ["train.jsonl"; "test.jsonl"] (fun file_path =>
        present <- path_exists file_path ;;
        if present then
          print (Banner file_path) ;;
          convert_jsonl_to_parquet file_path None
        else print (Skipping file_path)) w).
  { unfold main. destruct (batch a); [reflexivity|].
    destruct Hmode as [H|[->| ->]]; [discriminate| |]; reflexivity. }
  rewrite Hmain. clear Hmain. cbn [for_each].
  assert (Hstep : forall file_path w0,
    (forall s, fs w0 !! file_path <> Some (ParquetFile s)) ->
    exists msgs,
      (present <- path_exists file_path ;;
       if present then
         print (Banner file_path) ;;
         convert_jsonl_to_parquet file_path None
       else print (Skipping file_path)) w0
      = (outcome (file_conversion (fs w0) file_path),
         World (kept (file_conversion (fs w0) file_path)
                     (with_suffix file_path ".parquet") (fs w0))
               (out w0 ++ msgs))).
  { intros file_path w0 Hnp.
    erewrite bind_ok by (unfold path_exists, gets; reflexivity).
    destruct (fs w0 !! file_path) as [f|] eqn:Hf.
    - rewrite bool_decide_eq_true_2 by eauto.
      erewrite bind_ok by apply print_appends. cbn beta.
      destruct (convert_files file_path (World (fs w0) (out w0 ++ [Banner file_path])))
        as (msgs & Hrun); [cbn [fs]; rewrite Hf; exact Hnp|].
      rewrite Hrun. cbn [fs out]. exists (Banner file_path :: msgs).
      now rewrite <- app_assoc.
    - rewrite bool_decide_eq_false_2 by (intros [? ?]; discriminate).
      exists [Skipping file_path]. rewrite print_appends.
      unfold file_conversion. now rewrite Hf. }
  destruct (Hstep "train.jsonl" w Htrain) as (msgs1 & Hrun1).
  fold first in Hrun1. fold after_first in Hrun1.
  destruct (outcome first) as [[]|e] eqn:Hfirst.
  - erewrite bind_ok by exact Hrun1.
    match goal with |- context [bind _ _ ?w0] => set (w1 := w0) end.
    assert (Hsame : fs w1 !! "test.jsonl" = fs w !! "test.jsonl").
    { subst w1. cbn [fs]. unfold after_first. apply kept_other, not_eq_sym, Hsuffix. }
    assert (Htest1 : forall s, fs w1 !! "test.jsonl" <> Some (ParquetFile s))
      by (intros s; rewrite Hsame; apply Htest).
    destruct (Hstep "test.jsonl" w1 Htest1) as (msgs2 & Hrun2).
    assert (Hconv : file_conversion (fs w1) "test.jsonl" = second)
      by (unfold file_conversion, second; now rewrite Hsame).
    rewrite Hconv in Hrun2. subst w1. cbn [fs out] in Hrun2.
    destruct (outcome second) as [[]|e] eqn:Hsecond.
    + erewrite bind_ok by exact Hrun2. unfold ret. eexists. split; reflexivity.
    + erewrite bind_raise by exact Hrun2. eexists. split; reflexivity.
  - erewrite bind_raise by exact Hrun1. eexists. split; reflexivity.
Qed.

End WithLibraries.

Arguments TextFile {snapshot} lines.
Arguments ParquetFile {snapshot} s.
Arguments World {snapshot} fs out.
Arguments fs {snapshot} w.
Arguments out {snapshot} w.
Arguments Valid {json} v.
Arguments Blank {json}.
Arguments Malformed {json}.
Arguments Unreadable {json} e.

(** *** Runs on the scenario of the specification *)

Lemma magic_size_pos (df s : list text) : list_writer df = Written s -> (0 < magic_size s)%Z.
Proof. intros _. unfold magic_size. lia. Qed.

(** The converter with the stand-ins. *)
Definition convert (jsonl_path : string) (parquet_path : option string)
    (w : world (list text)) : result unit * world (list text) :=
  convert_jsonl_to_parquet text brace_loads (list text) list_frame (@length text) no_columns
    (list text) list_writer magic_size swap_suffix jsonl_path parquet_path w.

Definition run_main (a : args) (w : world (list text)) : result unit * world (list text) :=
  main text brace_loads (list text) list_frame (@length text) no_columns
    (list text) list_writer magic_size swap_suffix a w.

(** Three valid lines, one malformed line and a blank one. *)
Definition member (key value : string) : string :=
  "{" +:+ dq +:+ key +:+ dq +:+ ": " +:+ value +:+ "}".

Definition scenario_lines : list text :=
  map text_of_string
    [member "a" "1" +:+ nl; "{bad json" +:+ nl; nl;
     "  " +:+ member "a" "2" +:+ "  " +:+ nl; member "b" "3"].

Definition scenario_world : world (list text) :=
  World {["data.jsonl" := TextFile scenario_lines]} [].

Definition run_scenario (jsonl_path : string) : result unit * world (list text) :=
  convert jsonl_path (Some "data.parquet") scenario_world.

Lemma scenario_readable : Forall (readable text brace_loads) scenario_lines.
Proof. repeat constructor; intros e H; vm_compute in H; discriminate H. Qed.

Example scenario_counts :
  count (is_valid text brace_loads) scenario_lines = 3%nat
  /\ count (is_malformed text brace_loads) scenario_lines = 1%nat.
Proof. split; reflexivity. Qed.

Example scenario_snapshot :
  fst (run_scenario "data.jsonl") = Ok tt
  /\ fs (snd (run_scenario "data.jsonl")) !! "data.parquet"
     = Some (ParquetFile (map text_of_string [member "a" "1"; member "a" "2"; member "b" "3"]))
  /\ out (snd (run_scenario "data.jsonl"))
     = [Reading "data.jsonl"; ParseWarning 2 "data.jsonl"; Loaded 3 "data.jsonl";
        Converting; Shape 3 0; Columns []; SampleHeader; Saving "data.parquet";
        Completed 41 11].
Proof. repeat split; vm_compute; reflexivity. Qed.

Example suffix_swapped :
  swap_suffix "train.jsonl" ".parquet" = "train.parquet"
  /\ swap_suffix "data" ".parquet" = "data.parquet"
  /\ swap_suffix "a.b.jsonl" ".parquet" = "a.b.parquet".
Proof. repeat split. Qed.

(** A file of two lines, each of them the empty object. *)
Definition empty_objects : list text := map text_of_string ["{}" +:+ nl; "{}" +:+ nl].

Definition empty_objects_world : world (list text) :=
  World {["empty.jsonl" := TextFile empty_objects]} [].

Example empty_objects_run :
  count (is_valid text brace_loads) empty_objects = 2%nat
  /\ fst (convert "empty.jsonl" None empty_objects_world) = Ok tt
  /\ fs (snd (convert "empty.jsonl" None empty_objects_world)) !! "empty.parquet"
     = Some (ParquetFile []).
Proof. repeat split; vm_compute; reflexivity. Qed.


(** A writer that refuses every frame, as pyarrow refuses a column of
    mixed types: the exception ends the run, after the records were read
    and before any file is written. *)
Definition refusing_writer (df : list text) : written (list text) :=
  Refused (PyError "ArrowTypeError") None.

Example refused_frame_ends_run :
  convert_jsonl_to_parquet text brace_loads (list text) list_frame (@length text) no_columns
    (list text) refusing_writer magic_size swap_suffix
    "data.jsonl" (Some "data.parquet") scenario_world
  = (Raise (PyError "ArrowTypeError"),
     World (fs scenario_world)
           [Reading "data.jsonl"; ParseWarning 2 "data.jsonl"; Loaded 3 "data.jsonl";
            Converting; Shape 3 0; Columns []; SampleHeader; Saving "data.parquet"]).
Proof. vm_compute. reflexivity. Qed.


Lemma convert_missing_input_witness :
  fs scenario_world !! "nothing.jsonl" = None
  /\ run_scenario "nothing.jsonl"
     = (Ok tt, World (fs scenario_world) (out scenario_world ++ [InputMissing "nothing.jsonl"])).
Proof.
  split; [reflexivity|].
  apply (convert_missing_input text brace_loads (list text) list_frame (@length text)
           no_columns (list text) list_writer magic_size swap_suffix
           "nothing.jsonl" (Some "data.parquet") scenario_world).
  reflexivity.
Defined.

(** A directory with [test.jsonl] only, for batch mode. *)
Definition batch_world : world (list text) :=
  World {["test.jsonl" := TextFile scenario_lines]} [].

Definition batch_args : args := Args None None false.

Example batch_run_messages :
  out (snd (run_main batch_args batch_world))
    = [Skipping "train.jsonl"; Banner "test.jsonl"; Reading "test.jsonl";
       ParseWarning 2 "test.jsonl"; Loaded 3 "test.jsonl"; Converting; Shape 3 0;
       Columns []; SampleHeader; Saving "test.parquet"; Completed 41 11].
Proof. vm_compute. reflexivity. Qed.

Lemma read_jsonl_reports_line_numbers_witness :
  read_jsonl text brace_loads (list text) "data.jsonl" scenario_world
    = (Ok (records text brace_loads scenario_lines),
       World (fs scenario_world)
             (out scenario_world ++ [Reading "data.jsonl"]
                ++ expected_warnings text brace_loads "data.jsonl" scenario_lines
                ++ [Loaded (count (is_valid text brace_loads) scenario_lines) "data.jsonl"])).
Proof.
  apply (read_jsonl_reports_line_numbers text brace_loads (list text) "data.jsonl"
           scenario_lines scenario_world).
  - reflexivity.
  - exact scenario_readable.
Defined.

Example scenario_warnings :
  expected_warnings text brace_loads "data.jsonl" scenario_lines = [ParseWarning 2 "data.jsonl"].
Proof. vm_compute. reflexivity. Qed.

Lemma convert_touches_only_target_witness :
  fs (snd (run_scenario "data.jsonl")) !! "data.jsonl" = fs scenario_world !! "data.jsonl".
Proof.
  apply (convert_touches_only_target text brace_loads (list text) list_frame (@length text)
           no_columns (list text) list_writer magic_size swap_suffix
           "data.jsonl" (Some "data.parquet") scenario_world "data.jsonl").
  discriminate.
Defined.

Lemma convert_twice_same_files_witness :
  exists w2,
    convert "data.jsonl" (Some "data.parquet") (snd (run_scenario "data.jsonl")) = (Ok tt, w2)
    /\ fs w2 = fs (snd (run_scenario "data.jsonl")).
Proof.
  apply (convert_twice_same_files text brace_loads (list text) list_frame (@length text)
           no_columns (list text) list_writer magic_size magic_size_pos swap_suffix
           "data.jsonl" (Some "data.parquet") scenario_world
           (snd (run_scenario "data.jsonl")) scenario_lines).
  - reflexivity.
  - discriminate.
  - vm_compute. reflexivity.
Defined.

Lemma batch_converts_in_order_witness :
  exists w',
    run_main batch_args batch_world = (Ok tt, w')
    /\ fs w' = <["test.parquet" :=
                   ParquetFile (map text_of_string
                                  [member "a" "1"; member "a" "2"; member "b" "3"])]>
                 (fs batch_world).
Proof.
  apply (batch_converts_in_order text brace_loads (list text) list_frame (@length text)
           no_columns (list text) list_writer magic_size magic_size_pos swap_suffix
           batch_args batch_world).
  - right. left. reflexivity.
  - intros s H. vm_compute in H. discriminate H.
  - intros s H. vm_compute in H. discriminate H.
  - intros H. vm_compute in H. discriminate H.
Defined.

End Converter.

(** * Dataset normalizer ([examples/data_preprocess/olympic_dataset.py]) *)

Module Normalizer.

(** The value of one field of a source record. *)
#[local] Unset Elimination Schemes.
Inductive value : Type :=
  | VNone
  | VBool (b : bool)
  | VInt (z : Z)
  | VStr (s : string)
  | VList (l : list value)
  | VDict (d : list (string * value)).
#[local] Set Elimination Schemes.

(** The fixed text of [prompt_text] before and after the question. *)
Definition prompt_prefix : string :=
    nl
    +:+ "Your task is to write a proof solution to the following problem. Your proof will be graded by judges for correctness and completeness. When you write your proof, follow these guidelines:" +:+ nl
    +:+ "  - You are creating a proof, not a proof outline. Each step should be carefully explained and documented. If not properly explained, the judge will assume that you cannot explain it, and therefore decrease your grade." +:+ nl
    +:+ "  - You can use general theorems and lemmas, but only if they are well-known. As a rule of thumb: if the result has a name and is famous enough to have a Wikipedia page or something similar to describe it, it is allowed. Any result from papers that would not be taught in high school or low-level bachelor courses in mathematics should not be used. Any use of such results will immediately give you a zero grade." +:+ nl
    +:+ "  - Do not skip computation steps in your proof. Clearly explain what transformations were done and why they are allowed in each step of a calculation." +:+ nl
    +:+ "  - You should use correct LaTeX notation to write equations and mathematical symbols. You should encompass these equations in appropriate symbols (" +:+ dq +:+ "\(" +:+ dq +:+ " and " +:+ dq +:+ "\)" +:+ dq +:+ " for inline math, " +:+ dq +:+ "\[" +:+ dq +:+ " and " +:+ dq +:+ "\]" +:+ dq +:+ " for block math) to enhance the clarity of your proof. Do not use any unicode characters." +:+ nl
    +:+ "  - Your proof should be self-contained." +:+ nl
    +:+ "  - If you are not sure about a specific step, or do not know how to prove an intermediate result, clearly state this. It is much preferable to indicate your uncertainty rather than making incorrect statements or claims." +:+ nl
    +:+ nl
    +:+ "PROBLEM: ".

Definition prompt_suffix : string := nl.

(** The record [_process_fn] returns. *)
Record chat_message : Type := ChatMessage {
  role : string;
  content : string
}.

Record reward_spec : Type := RewardSpec {
  style : string;
  ground_truth : string
}.

Record provenance : Type := Provenance {
  split : string;
  index : nat;
  question : value
}.

Record processed : Type := Processed {
  data_source : string;
  prompt : list chat_message;
  ability : string;
  reward_model : reward_spec;
  extra_info : provenance
}.

(** The row [Dataset.map] stores for one example: the mapping the function
    returned, laid over the fields still in the example after the call. *)
Record row : Type := Row {
  carried : gmap string value;
  fields : processed
}.

Definition processed_keys : list string :=
  ["data_source"; "prompt"; "ability"; "reward_model"; "extra_info"].

(** A split of a loaded dataset is a table: the names of its columns, and
    its rows.  A row gives the cells it has; a cell it does not give is
    null. *)
Record table : Type := Table {
  column_names : list string;
  raw_records : list (gmap string value)
}.

(** The example [Dataset.map] hands to its function for one row: a mapping
    with exactly the columns of the table as keys, [None] where the row has
    no cell. *)
Definition example_of (columns : list string) (raw : gmap string value)
    : gmap string value :=
  list_to_map ((fun k => (k, default VNone (raw !! k))) <$> columns).

Definition examples (t : table) : list (gmap string value) :=
  example_of (column_names t) <$> raw_records t.

(** A [DatasetDict]: split names with their tables, in order. *)
Abbreviation dataset_dict := (list (string * table)).

(** Regular files: a snapshot holding rows, or anything else. *)
Inductive file : Type :=
  | Snapshot (rows : list row)
  | Blob (bytes : string).

Inductive message : Type :=
  | Loading (repo : string)
  | FoundSplits (splits : list string)
  | Processing (split_name : string)
  | Writing (path : string)
  | Duplicating (src dst : string)
  | CopyingToHdfs (hdfs_dir : string).

(** [os.path.join] of two components (posixpath). *)
Definition starts_with_sep (p : string) : bool :=
  match p with
  | String c _ => bool_decide (c = "/"%char)
  | EmptyString => false
  end.

Fixpoint ends_with_sep (p : string) : bool :=
  match p with
  | EmptyString => false
  | String c EmptyString => bool_decide (c = "/"%char)
  | String _ p' => ends_with_sep p'
  end.

Definition is_empty (p : string) : bool :=
  match p with EmptyString => true | String _ _ => false end.

Definition path_join (a b : string) : string :=
  if starts_with_sep b then b
  else if is_empty a || ends_with_sep a then a +:+ b
  else a +:+ "/" +:+ b.

(** [Dataset.map(function=f, with_indices=True)]: [f] on every example with
    its position, in order; an exception of [f] ends the call. *)
Fixpoint map_with_indices (f : gmap string value -> nat -> result row)
    (examples : list (gmap string value)) (idx : nat) : result (list row) :=
  match examples with
  | [] => Ok []
  | example :: rest =>
      match f example idx with
      | Raise e => Raise e
      | Ok r =>
          match map_with_indices f rest (S idx) with
          | Raise e => Raise e
          | Ok rs => Ok (r :: rs)
          end
      end
  end.

(** Stand-ins for the collaborators, to run the normalizer on examples:
    [str] of the scalar values, a home directory, and a remote store that
    records what it was asked and never fails. *)
Definition simple_str (v : value) : string :=
  match v with
  | VNone => "None"
  | VBool true => "True"
  | VBool false => "False"
  | VInt z => pretty z
  | VStr s => s
  | VList _ => "[...]"
  | VDict _ => "{...}"
  end.

Definition home_expand (p : string) : string :=
  match p with
  | String "~" rest => "/home/user" +:+ rest
  | _ => p
  end.

Inductive remote_call : Type :=
  | EnsureDirectory (path : string)
  | CopyTree (src dst : string).

Definition log_makedirs (p : string) (log : list remote_call)
    : result unit * list remote_call :=
  (Ok tt, log ++ [EnsureDirectory p]).

Definition log_copy (local : gmap string file) (src dst : string) (log : list remote_call)
    : result unit * list remote_call :=
  (Ok tt, log ++ [CopyTree src dst]).

Section WithLibraries.

(** [str(v)] for a value that is not a string, as an f-string renders it. *)
Variable py_str : value -> string.

(** [os.path.expanduser] *)
Variable expanduser : string -> string.

(** Modelled from the spec: [verl.utils.hdfs_io.makedirs] and [copy] are
    not among the sources.  The specification describes them as the bulk
    remote storage client, [ensure_directory(path)] and
    [copy(local_path, remote_path)], with failure semantics of their own;
    they act on the remote store and read the local files. *)
Variable remote : Type.
Variable hdfs_makedirs : string -> remote -> result unit * remote.
Variable hdfs_copy : gmap string file -> string -> string -> remote -> result unit * remote.

Record world : Type := World {
  hub : gmap string dataset_dict;
  fs : gmap string file;
  hdfs : remote;
  out : list message
}.

Definition print (m : message) : M world unit :=
  modify (fun w => World (hub w) (fs w) (hdfs w) (out w ++ [m])).

Definition lift {A} (r : result A) : M world A := fun w => (r, w).

(** [f"...{question_raw}..."] *)
Definition format_value (v : value) : string :=
  match v with
  | VStr s => s
  | _ => py_str v
  end.

Definition prompt_text (question_raw : value) : string :=
  prompt_prefix +:+ format_value question_raw +:+ prompt_suffix.

(** [_make_map_fn(split, data_source)] is [_process_fn split data_source]:
    the example after [pop] and the mapping returned. *)
Definition _process_fn (split : string) (data_source : string)
    (example : gmap string value) (idx : nat)
    : result (gmap string value * processed) :=
  match example !! "question" with
  | None => Raise (KeyError "question")
  | Some question_raw =>
      Ok (delete "question" example,
          {| data_source := data_source;
             prompt := [ {| role := "user"; content := prompt_text question_raw |} ];
             ability := "math";
             reward_model := {| style := "llm_as_a_judge"; ground_truth := "0" |};
             extra_info := {| split := split; index := idx; question := question_raw |} |})
  end.

(** What [Dataset.map] does with one example: call the function, then lay
    the returned mapping over what is left of the example. *)
Definition map_example (split : string) (data_source : string)
    (example : gmap string value) (idx : nat) : result row :=
  match _process_fn split data_source example idx with
  | Raise e => Raise e
  | Ok (example', p) =>
      Ok {| carried := foldr delete example' processed_keys; fields := p |}
  end.

(** [hf_split.map(function=_make_map_fn(split_name, data_source), with_indices=True)] *)
Definition normalize_split (split_name data_source : string)
    (hf_split : list (gmap string value)) : result (list row) :=
  map_with_indices (map_example split_name data_source) hf_split 0.

(** [datasets.load_dataset(repo)]: the splits of the repository, each of
    them a table. *)
Definition load_dataset (repo : string) : M world dataset_dict :=
  fun w =>
    match hub w !! repo with
    | Some d => (Ok d, w)
    | None => (Raise (DatasetNotFoundError repo), w)
    end.

(** [os.makedirs(p, exist_ok=True)].  The file system below holds regular
    files only: the directories this call creates are not part of it, and
    all that is kept of the call is that it fails on the empty path and on
    a path that names a file. *)
Definition makedirs (p : string) : M world unit :=
  fun w =>
    if is_empty p then (Raise (FileNotFoundError p), w)
    else match fs w !! p with
         | Some _ => (Raise (FileExistsError p), w)
         | None => (Ok tt, w)
         end.

(** [mapped.to_parquet(p)] *)
Definition to_parquet (p : string) (rows : list row) : M world unit :=
  modify (fun w => World (hub w) (<[p := Snapshot rows]> (fs w)) (hdfs w) (out w)).

(** [os.path.exists(p)] *)
Definition path_exists (p : string) : M world bool :=
  gets (fun w => bool_decide (is_Some (fs w !! p))).

(** [shutil.copy(src, dst)] *)
Definition shutil_copy (src dst : string) : M world unit :=
  fun w =>
    match fs w !! src with
    | None => (Raise (FileNotFoundError src), w)
    | Some f =>
        if bool_decide (src = dst) then (Raise (SameFileError src), w)
        else (Ok tt, World (hub w) (<[dst := f]> (fs w)) (hdfs w) (out w))
    end.

Definition remote_makedirs (p : string) : M world unit :=
  fun w =>
    let '(r, h) := hdfs_makedirs p (hdfs w) in
    (r, World (hub w) (fs w) h (out w)).

Definition remote_copy (src dst : string) : M world unit :=
  fun w =>
    let '(r, h) := hdfs_copy (fs w) src dst (hdfs w) in
    (r, World (hub w) (fs w) h (out w)).

(** The parsed command line. *)
Record args : Type := Args {
  local_dir : string;
  hdfs_dir : option string
}.

Definition source_repo : string := "xiaomama2002/olympic_dataset".

(** The body of [for split_name in splits]; [hf_split] is
    [dataset[split_name]]. *)
Definition write_split (local_dir data_source : string)
    (item : string * table) : M world unit :=
  let '(split_name, hf_split) := item in
  print (Processing split_name) ;;
  mapped <- lift (normalize_split split_name data_source (examples hf_split)) ;;
  let out_path := path_join local_dir (split_name +:+ ".parquet") in
  print (Writing out_path) ;;
  to_parquet out_path mapped.

(** The [if "validation" in splits and "test" not in splits] block. *)
Definition duplicate_validation (local_dir : string) (splits : list string)
    : M world unit :=
  if bool_decide ("validation" ∈ splits) && negb (bool_decide ("test" ∈ splits)) then
    let src := path_join local_dir "validation.parquet" in
    let dst := path_join local_dir "test.parquet" in
    print (Duplicating src dst) ;;
    present <- path_exists src ;;
    if present then shutil_copy src dst else ret tt
  else ret tt.

(** The [if hdfs_dir is not None] block. *)
Definition mirror (local_dir : string) (hdfs_dir : option string) : M world unit :=
  match hdfs_dir with
  | Some d =>
      print (CopyingToHdfs d) ;;
      remote_makedirs d ;;
      remote_copy local_dir d
  | None => ret tt
  end.

Definition main (a : args) : M world unit :=
  let local_dir := expanduser (local_dir a) in
  let data_source := source_repo in
  print (Loading data_source) ;;
  dataset <- load_dataset data_source ;;
  let splits := map fst dataset in
  print (FoundSplits splits) ;;
  makedirs local_dir ;;
  for_each dataset (write_split local_dir data_source) ;;
  duplicate_validation local_dir splits ;;
  mirror local_dir (hdfs_dir a).

(** The run up to the end of the loop over the splits, with what follows
    the loop as [k]. *)
Definition main_upto_loop (a : args) (k : list string -> M world unit) : M world unit :=
  print (Loading source_repo) ;;
  dataset <- load_dataset source_repo ;;
  print (FoundSplits (map fst dataset)) ;;
  makedirs (expanduser (local_dir a)) ;;
  for_each dataset (write_split (expanduser (local_dir a)) source_repo) ;;
  k (map fst dataset).

(** *** Properties of rows and of the files a run leaves *)

(** The prompt of a row is the single user message whose content is the
    template around the question that [extra_info] records. *)
Definition embeds_question (r : row) : Prop :=
  prompt (fields r)
    = [ {| role := "user";
           content := prompt_text (question (extra_info (fields r))) |} ].

(** Every example of every split has a [question] field. *)
Definition complete (d : dataset_dict) : Prop :=
  Forall (fun item => Forall (fun ex : gmap string value => is_Some (ex !! "question"))
                             (examples item.2)) d.

(** [fs1] is [fs0] except for snapshots whose rows all embed a question. *)
Definition fs_extends (fs0 fs1 : gmap string file) : Prop :=
  forall p, fs1 !! p = fs0 !! p
            \/ exists rows, fs1 !! p = Some (Snapshot rows) /\ Forall embeds_question rows.

Definition snapshot_path (local_dir split_name : string) : string :=
  path_join local_dir (split_name +:+ ".parquet").

(** [fs1] is [fs0] except for snapshot files of splits of [d], each of them
    holding all the rows its split is mapped to. *)
Definition written_by_splits (local_dir data_source : string) (d : dataset_dict)
    (fs0 fs1 : gmap string file) : Prop :=
  forall p, fs1 !! p = fs0 !! p
            \/ exists split_name t rows,
                 (split_name, t) ∈ d
                 /\ normalize_split split_name data_source (examples t) = Ok rows
                 /\ p = snapshot_path local_dir split_name
                 /\ fs1 !! p = Some (Snapshot rows).

(** C7 as the specification states it: a record of the source that has no
    [question] makes the run fail. *)
Definition aborts_on_record_without_question (a : args) (w : world) : Prop :=
  forall d split_name t raw,
    hub w !! source_repo = Some d ->
    (split_name, t) ∈ d -> raw ∈ raw_records t -> raw !! "question" = None ->
    is_ok (fst (main a w)) = false.

Lemma fs_extends_refl fs0 : fs_extends fs0 fs0.
Proof. intros p. now left. Qed.

Lemma fs_extends_trans fs0 fs1 fs2 :
  fs_extends fs0 fs1 -> fs_extends fs1 fs2 -> fs_extends fs0 fs2.
Proof.
  intros H01 H12 p. destruct (H12 p) as [E|E]; [|now right].
  rewrite E. apply H01.
Qed.

Lemma fs_extends_insert fs0 p rows :
  Forall embeds_question rows -> fs_extends fs0 (<[p := Snapshot rows]> fs0).
Proof.
  intros Hr q. destruct (decide (p = q)) as [->|Hne].
  - right. exists rows. now rewrite lookup_insert_eq.
  - left. now rewrite lookup_insert_ne.
Qed.

(** An example has exactly the columns of its table; the cell of a column
    is the one the row gives, and [None] when it gives none. *)
Lemma example_of_lookup (columns : list string) (raw : gmap string value) (k : string) :
  example_of columns raw !! k
    = if bool_decide (k ∈ columns) then Some (default VNone (raw !! k)) else None.
Proof.
  unfold example_of. induction columns as [|c columns IH].
  - rewrite bool_decide_eq_false_2 by apply not_elem_of_nil. apply lookup_empty.
  - rewrite fmap_cons, list_to_map_cons. destruct (decide (c = k)) as [->|Hne].
    + rewrite lookup_insert_eq, bool_decide_eq_true_2 by apply list_elem_of_here.
      reflexivity.
    + rewrite lookup_insert_ne by exact Hne. rewrite IH.
      destruct (decide (k ∈ columns)) as [Hin|Hout].
      * rewrite !bool_decide_eq_true_2; [reflexivity| |exact Hin].
        now apply list_elem_of_further.
      * rewrite !bool_decide_eq_false_2; [reflexivity| |exact Hout].
        intros Hin. apply elem_of_cons in Hin as [->|Hin]; [now apply Hne | now apply Hout].
Qed.

(** A split with a [question] column hands every example over with that
    key; a split without the column, with none. *)
Lemma examples_with_column (t : table) :
  "question" ∈ column_names t ->
  Forall (fun ex : gmap string value => is_Some (ex !! "question")) (examples t).
Proof.
  intros Hcol. unfold examples. apply Forall_fmap, Forall_forall. intros raw _.
  cbn. rewrite example_of_lookup, bool_decide_eq_true_2 by exact Hcol. eauto.
Qed.

Lemma examples_without_column (t : table) :
  "question" ∉ column_names t -> raw_records t <> [] ->
  ~ Forall (fun ex : gmap string value => is_Some (ex !! "question")) (examples t).
Proof.
  intros Hcol Hne Hall. unfold examples in Hall.
  destruct (raw_records t) as [|raw rest]; [contradiction|].
  cbn in Hall. inversion Hall as [|? ? [q Hq] _]; subst.
  rewrite example_of_lookup, bool_decide_eq_false_2 in Hq by exact Hcol. discriminate.
Qed.

Lemma written_by_splits_refl local_dir data_source d fs0 :
  written_by_splits local_dir data_source d fs0 fs0.
Proof. intros p. now left. Qed.

Lemma written_by_splits_step local_dir data_source d name t rows fs0 fs1 :
  (name, t) ∈ d ->
  normalize_split name data_source (examples t) = Ok rows ->
  written_by_splits local_dir data_source d
    (<[snapshot_path local_dir name := Snapshot rows]> fs0) fs1 ->
  written_by_splits local_dir data_source d fs0 fs1.
Proof.
  intros Hin Hrows Hrest p. destruct (Hrest p) as [E|E]; [|now right].
  destruct (decide (snapshot_path local_dir name = p)) as [<-|Hne].
  - right. exists name, t, rows. rewrite E, lookup_insert_eq. auto.
  - left. now rewrite E, lookup_insert_ne.
Qed.

Lemma map_example_ok split data_source (example : gmap string value) idx q :
  example !! "question" = Some q ->
  exists r, map_example split data_source example idx = Ok r
            /\ question (extra_info (fields r)) = q
            /\ index (extra_info (fields r)) = idx
            /\ embeds_question r.
Proof.
  intros Hq. unfold map_example, _process_fn. rewrite Hq.
  eexists. split; [reflexivity|]. repeat split.
Qed.

Lemma map_example_missing split data_source (example : gmap string value) idx :
  example !! "question" = None ->
  map_example split data_source example idx = Raise (KeyError "question").
Proof. intros Hq. unfold map_example, _process_fn. now rewrite Hq. Qed.

Lemma map_rows split data_source (examples : list (gmap string value)) : forall idx,
  Forall (fun ex : gmap string value => is_Some (ex !! "question")) examples ->
  exists rows,
    map_with_indices (map_example split data_source) examples idx = Ok rows
    /\ length rows = length examples
    /\ (forall i r, rows !! i = Some r ->
          index (extra_info (fields r)) = (idx + i)%nat
          /\ (exists raw, examples !! i = Some raw
                          /\ raw !! "question" = Some (question (extra_info (fields r))))
          /\ embeds_question r).
Proof.
  induction examples as [|ex examples IH]; intros idx Hall.
  - exists []. split; [reflexivity|]. split; [reflexivity|].
    intros i r Hi. now rewrite lookup_nil in Hi.
  - inversion Hall as [|? ? [q Hq] Hall']; subst.
    destruct (map_example_ok split data_source ex idx q Hq) as (r0 & Hr0 & Hq0 & Hi0 & He0).
    destruct (IH (S idx) Hall') as (rows & Hrows & Hlen & Hprop).
    exists (r0 :: rows). cbn [map_with_indices]. rewrite Hr0, Hrows.
    split; [reflexivity|]. split; [cbn; now rewrite Hlen|].
    intros [|j] r Hi; cbn in Hi.
    + injection Hi as <-. rewrite Nat.add_0_r. repeat split; auto.
      exists ex. split; [reflexivity|]. now rewrite Hq0.
    + destruct (Hprop j r Hi) as (Hidx & Hraw & He).
      repeat split; auto. lia.
Qed.

Lemma map_rows_missing split data_source (examples : list (gmap string value)) : forall idx,
  ~ Forall (fun ex : gmap string value => is_Some (ex !! "question")) examples ->
  map_with_indices (map_example split data_source) examples idx
    = Raise (KeyError "question").
Proof.
  induction examples as [|ex examples IH]; intros idx Hnot.
  - exfalso. apply Hnot. constructor.
  - cbn [map_with_indices]. destruct (ex !! "question") as [q|] eqn:Hq.
    + destruct (map_example_ok split data_source ex idx q Hq) as (r0 & Hr0 & _).
      rewrite Hr0. rewrite IH; [reflexivity|].
      intros Hall. apply Hnot. constructor; eauto.
    + now rewrite map_example_missing.
Qed.

Lemma rows_embed split data_source (examples : list (gmap string value)) rows :
  normalize_split split data_source examples = Ok rows -> Forall embeds_question rows.
Proof.
  unfold normalize_split. intros Hrun.
  destruct (decide (Forall (fun ex : gmap string value => is_Some (ex !! "question")) examples))
    as [Hall|Hnot].
  - destruct (map_rows split data_source examples 0 Hall) as (rows' & Hrows & _ & Hprop).
    rewrite Hrows in Hrun. injection Hrun as <-.
    apply Forall_lookup. intros i r Hi. now destruct (Hprop i r Hi) as (_ & _ & He).
  - rewrite map_rows_missing in Hrun by exact Hnot. discriminate.
Qed.

Lemma print_logs m w : print m w = (Ok tt, World (hub w) (fs w) (hdfs w) (out w ++ [m])).
Proof. reflexivity. Qed.

Lemma write_split_ok local_dir data_source name (recs : table) w :
  Forall (fun ex : gmap string value => is_Some (ex !! "question")) (examples recs) ->
  exists rows,
    normalize_split name data_source (examples recs) = Ok rows
    /\ write_split local_dir data_source (name, recs) w
       = (Ok tt,
          World (hub w) (<[snapshot_path local_dir name := Snapshot rows]> (fs w)) (hdfs w)
                (out w ++ [Processing name; Writing (snapshot_path local_dir name)])).
Proof.
  intros Hall.
  destruct (map_rows name data_source (examples recs) 0 Hall) as (rows & Hrows & _).
  exists rows. split; [exact Hrows|].
  unfold write_split. erewrite bind_ok by apply print_logs.
  erewrite bind_ok by (unfold lift; unfold normalize_split; rewrite Hrows; reflexivity).
  erewrite bind_ok by apply print_logs.
  unfold to_parquet, modify. cbn [hub fs hdfs out].
  now rewrite <- app_assoc.
Qed.

Lemma write_split_missing local_dir data_source name (recs : table) w :
  ~ Forall (fun ex : gmap string value => is_Some (ex !! "question")) (examples recs) ->
  write_split local_dir data_source (name, recs) w
    = (Raise (KeyError "question"),
       World (hub w) (fs w) (hdfs w) (out w ++ [Processing name])).
Proof.
  intros Hnot. unfold write_split. erewrite bind_ok by apply print_logs.
  erewrite bind_raise; [reflexivity|].
  unfold lift, normalize_split. now rewrite map_rows_missing.
Qed.

(** The loop over the splits: it touches neither the hub nor the remote
    store, adds only snapshots whose rows embed a question, ends normally
    with one snapshot per split when the dataset is complete, and ends with
    [KeyError] at the first example without a [question] key otherwise. *)
Lemma write_loop local_dir data_source (d : dataset_dict) : forall w,
  exists r w',
    for_each d (write_split local_dir data_source) w = (r, w')
    /\ hub w' = hub w /\ hdfs w' = hdfs w
    /\ fs_extends (fs w) (fs w')
    /\ (complete d ->
        r = Ok tt
        /\ forall name, name ∈ map fst d -> is_Some (fs w' !! snapshot_path local_dir name))
    /\ (~ complete d -> r = Raise (KeyError "question")).
Proof.
  induction d as [|[name recs] d IH]; intros w.
  - exists (Ok tt), w. split; [reflexivity|].
    split; [reflexivity|]. split; [reflexivity|].
    split; [apply fs_extends_refl|]. split.
    + intros _. split; [reflexivity|].
      intros name Hin. now apply elem_of_nil in Hin.
    + intros Hnot. exfalso. apply Hnot. constructor.
  - cbn [for_each].
    destruct (decide (Forall (fun ex : gmap string value => is_Some (ex !! "question"))
                             (examples recs)))
      as [Hall|Hnot].
    + destruct (write_split_ok local_dir data_source name recs w Hall) as (rows & Hrows & Hrun).
      erewrite bind_ok by exact Hrun.
      match goal with |- context [for_each d _ ?w0] => destruct (IH w0) as (r & w' & Hloop & Hh & Hr & Hext & Hok & Hbad) end.
      cbn [hub fs hdfs out] in *.
      exists r, w'. split; [exact Hloop|]. split; [exact Hh|]. split; [exact Hr|].
      split; [|split].
      * eapply fs_extends_trans; [|exact Hext].
        apply fs_extends_insert. eapply rows_embed; exact Hrows.
      * intros Hc. inversion Hc as [|? ? _ Hc']; subst.
        destruct (Hok Hc') as [-> Hfiles]. split; [reflexivity|].
        intros n Hin. cbn in Hin. apply elem_of_cons in Hin as [->|Hin]; [|now apply Hfiles].
        destruct (Hext (snapshot_path local_dir name)) as [E|(rs & E & _)]; rewrite E; eauto.
        rewrite lookup_insert_eq. eauto.
      * intros Hc. apply Hbad. intros Hc'. apply Hc. constructor; assumption.
    + rewrite (bind_raise _ _ _ _ _ (write_split_missing local_dir data_source name recs w Hnot)).
      eexists _, _. split; [reflexivity|]. cbn [hub fs hdfs out].
      split; [reflexivity|]. split; [reflexivity|].
      split; [apply fs_extends_refl|]. split.
      * intros Hc. inversion Hc; subst. contradiction.
      * reflexivity.
Qed.

(** However the loop ends, every file it changed is the snapshot of a
    split it mapped to the end. *)
Lemma write_loop_written local_dir data_source (d_all d : dataset_dict) : forall w,
  (forall item, item ∈ d -> item ∈ d_all) ->
  written_by_splits local_dir data_source d_all (fs w)
    (fs (snd (for_each d (write_split local_dir data_source) w))).
Proof.
  induction d as [|[name recs] d IH]; intros w Hsub.
  - apply written_by_splits_refl.
  - cbn [for_each].
    destruct (decide (Forall (fun ex : gmap string value => is_Some (ex !! "question"))
                             (examples recs)))
      as [Hall|Hnot].
    + destruct (write_split_ok local_dir data_source name recs w Hall) as (rows & Hrows & Hrun).
      erewrite bind_ok by exact Hrun.
      eapply written_by_splits_step; [apply Hsub, list_elem_of_here | exact Hrows |].
      match goal with |- context [for_each d _ ?w0] => specialize (IH w0) end.
      cbn [fs] in IH. apply IH. intros item Hin. now apply Hsub, list_elem_of_further.
    + rewrite (bind_raise _ _ _ _ _ (write_split_missing local_dir data_source name recs w Hnot)).
      apply written_by_splits_refl.
Qed.

Lemma append_inv_head (a b c : string) : a +:+ b = a +:+ c -> b = c.
Proof. induction a as [|x a IH]; cbn; [auto|]. intros H. injection H as H. auto. Qed.

Lemma validation_test_paths_differ local_dir :
  path_join local_dir "validation.parquet" <> path_join local_dir "test.parquet".
Proof.
  unfold path_join. cbn [starts_with_sep].
  rewrite !bool_decide_eq_false_2 by discriminate.
  destruct (is_empty local_dir || ends_with_sep local_dir); intros H.
  - apply append_inv_head in H. discriminate.
  - apply append_inv_head in H. discriminate.
Qed.

(** The optional mirror to remote storage reads the local files and leaves
    them as they are. *)
Lemma mirror_run local_dir hdfs_dir w :
  exists r w',
    mirror local_dir hdfs_dir w = (r, w')
    /\ fs w' = fs w
    /\ (hdfs_dir = None -> r = Ok tt).
Proof.
  destruct hdfs_dir as [d|]; cbn [mirror].
  - erewrite bind_ok by apply print_logs.
    unfold bind, remote_makedirs, remote_copy. cbn [hub fs hdfs out].
    destruct (hdfs_makedirs d (hdfs w)) as [[[]|e] h]; cbn [hub fs hdfs out].
    + destruct (hdfs_copy (fs w) local_dir d h) as [r h'].
      eexists _, _. split; [reflexivity|]. split; [reflexivity|discriminate].
    + eexists _, _. split; [reflexivity|]. split; [reflexivity|discriminate].
  - exists (Ok tt), w. auto.
Qed.

Lemma main_prefix a w d (k : list string -> M world unit) :
  hub w !! source_repo = Some d ->
  is_empty (expanduser (local_dir a)) = false ->
  fs w !! expanduser (local_dir a) = None ->
  exists r w1,
    for_each d (write_split (expanduser (local_dir a)) source_repo)
             (World (hub w) (fs w) (hdfs w)
                    (out w ++ [Loading source_repo; FoundSplits (map fst d)])) = (r, w1)
    /\ main_upto_loop a k w
       = match r with Ok _ => k (map fst d) w1 | Raise e => (Raise e, w1) end.
Proof.
  intros Hhub Hne Hfree.
  destruct (for_each d (write_split (expanduser (local_dir a)) source_repo)
             (World (hub w) (fs w) (hdfs w)
                    (out w ++ [Loading source_repo; FoundSplits (map fst d)])))
    as [r w1] eqn:Hloop.
  exists r, w1. split; [reflexivity|].
  unfold main_upto_loop.
  erewrite bind_ok by apply print_logs. cbn beta.
  erewrite bind_ok by (unfold load_dataset; cbn [hub]; rewrite Hhub; reflexivity).
  cbn beta.
  erewrite bind_ok by apply print_logs. cbn beta.
  erewrite bind_ok
    by (unfold makedirs; cbn [hub fs hdfs out]; rewrite Hne, Hfree; reflexivity).
  cbn beta. cbn [hub fs hdfs out]. rewrite <- app_assoc. cbn [app].
  unfold bind at 1. rewrite Hloop. destruct r as [[]|e]; reflexivity.
Qed.

(** C6: mapping a split in which every record has a question yields one
    row per record, in order; the row at position [i] carries [i] as its
    [extra_info.index] and, as its [extra_info.question], the value of the
    [question] field of the source record at position [i]. *)
Theorem normalize_split_traceable (split_name data_source : string)
    (hf_split : list (gmap string value)) :
  Forall (fun ex : gmap string value => is_Some (ex !! "question")) hf_split ->
  exists rows,
    normalize_split split_name data_source hf_split = Ok rows
    /\ length rows = length hf_split
    /\ forall i r, rows !! i = Some r ->
         index (extra_info (fields r)) = i
         /\ exists raw, hf_split !! i = Some raw
                        /\ raw !! "question" = Some (question (extra_info (fields r))).
Proof.
  intros Hall.
  destruct (map_rows split_name data_source hf_split 0 Hall) as (rows & Hrows & Hlen & Hprop).
  exists rows. split; [exact Hrows|]. split; [exact Hlen|].
  intros i r Hi. destruct (Hprop i r Hi) as (Hidx & Hraw & _). auto.
Qed.

(** C7, amended: when some split has at least one record and no
    [question] column, the run ends with the uncaught [KeyError], before
    the copy of the validation snapshot and before the remote mirror; the
    hub and the remote store are as they were, and every file the run
    changed until then is the snapshot of a split that was mapped to the
    end, with all the rows of that split. *)
Theorem missing_question_column_aborts (a : args) (w : world) (d : dataset_dict)
    (split_name : string) (t : table) :
  hub w !! source_repo = Some d ->
  is_empty (expanduser (local_dir a)) = false ->
  fs w !! expanduser (local_dir a) = None ->
  (split_name, t) ∈ d -> "question" ∉ column_names t -> raw_records t <> [] ->
  exists w',
    main a w = (Raise (KeyError "question"), w')
    /\ hub w' = hub w
    /\ hdfs w' = hdfs w
    /\ written_by_splits (expanduser (local_dir a)) source_repo d (fs w) (fs w').
Proof.
  intros Hhub Hne Hfree Hsplit Hcol Hrows.
  assert (Hbad : ~ complete d).
  { intros Hc. unfold complete in Hc. rewrite Forall_forall in Hc.
    exact (examples_without_column t Hcol Hrows (Hc _ Hsplit)). }
  change (main a w) with
    (main_upto_loop a (fun splits =>
       duplicate_validation (expanduser (local_dir a)) splits ;;
       mirror (expanduser (local_dir a)) (hdfs_dir a)) w).
  destruct (main_prefix a w d
              (fun splits =>
                 duplicate_validation (expanduser (local_dir a)) splits ;;
                 mirror (expanduser (local_dir a)) (hdfs_dir a)) Hhub Hne Hfree)
    as (r & w1 & Hloop & Hmain).
  destruct (write_loop (expanduser (local_dir a)) source_repo d
              (World (hub w) (fs w) (hdfs w)
                     (out w ++ [Loading source_repo; FoundSplits (map fst d)])))
    as (r' & w1' & Hloop' & Hhubs & Hrem & _ & _ & Hfail).
  pose proof (write_loop_written (expanduser (local_dir a)) source_repo d d
                (World (hub w) (fs w) (hdfs w)
                       (out w ++ [Loading source_repo; FoundSplits (map fst d)]))
                (fun item H => H)) as Hwritten.
  rewrite Hloop in Hloop', Hwritten. injection Hloop' as <- <-.
  exists w1. rewrite Hmain, (Hfail Hbad). auto.
Qed.

Lemma duplicate_validation_run local_dir splits w snapshot :
  "validation" ∈ splits -> "test" ∉ splits ->
  fs w !! path_join local_dir "validation.parquet" = Some snapshot ->
  duplicate_validation local_dir splits w
    = (Ok tt,
       World (hub w)
             (<[path_join local_dir "test.parquet" := snapshot]> (fs w))
             (hdfs w)
             (out w ++ [Duplicating (path_join local_dir "validation.parquet")
                                    (path_join local_dir "test.parquet")])).
Proof.
  intros Hval Htest Hsrc. unfold duplicate_validation.
  rewrite bool_decide_eq_true_2 by exact Hval.
  rewrite bool_decide_eq_false_2 by exact Htest. cbn [andb negb].
  erewrite bind_ok by apply print_logs. cbn beta.
  erewrite bind_ok by (unfold path_exists, gets; reflexivity). cbn beta.
  cbn [hub fs hdfs out]. rewrite Hsrc, bool_decide_eq_true_2 by eauto.
  unfold shutil_copy. cbn [hub fs hdfs out]. rewrite Hsrc.
  rewrite bool_decide_eq_false_2 by apply validation_test_paths_differ.
  reflexivity.
Qed.

(** C8: when the source has a [validation] split and no [test] split (and
    every example has a question, so that the snapshots get written), the
    run leaves a [test.parquet] with exactly the content of
    [validation.parquet], which is still there; with no remote mirror asked
    for, the run ends normally. *)
Theorem validation_duplicated_as_test (a : args) (w : world) (d : dataset_dict) :
  hub w !! source_repo = Some d ->
  is_empty (expanduser (local_dir a)) = false ->
  fs w !! expanduser (local_dir a) = None ->
  complete d ->
  "validation" ∈ map fst d -> "test" ∉ map fst d ->
  exists r w' snapshot,
    main a w = (r, w')
    /\ fs w' !! path_join (expanduser (local_dir a)) "test.parquet" = Some snapshot
    /\ fs w' !! path_join (expanduser (local_dir a)) "validation.parquet" = Some snapshot
    /\ (hdfs_dir a = None -> r = Ok tt).
Proof.
  intros Hhub Hne Hfree Hc Hval Htest.
  change (main a w) with
    (main_upto_loop a (fun splits =>
       duplicate_validation (expanduser (local_dir a)) splits ;;
       mirror (expanduser (local_dir a)) (hdfs_dir a)) w).
  destruct (main_prefix a w d
              (fun splits =>
                 duplicate_validation (expanduser (local_dir a)) splits ;;
                 mirror (expanduser (local_dir a)) (hdfs_dir a)) Hhub Hne Hfree)
    as (r0 & w1 & Hloop & Hmain).
  destruct (write_loop (expanduser (local_dir a)) source_repo d
              (World (hub w) (fs w) (hdfs w)
                     (out w ++ [Loading source_repo; FoundSplits (map fst d)])))
    as (r' & w1' & Hloop' & _ & _ & _ & Hok & _).
  rewrite Hloop in Hloop'. injection Hloop' as <- <-.
  destruct (Hok Hc) as [-> Hfiles].
  destruct (Hfiles "validation" Hval) as [snapshot Hsnap].
  change (snapshot_path (expanduser (local_dir a)) "validation")
    with (path_join (expanduser (local_dir a)) "validation.parquet") in Hsnap.
  rewrite Hmain.
  erewrite bind_ok by (apply duplicate_validation_run; eassumption). cbn beta.
  match goal with |- context [mirror ?l ?h ?w0] =>
    destruct (mirror_run l h w0) as (r & w' & Hmirror & Hfs & Hnone) end.
  exists r, w', snapshot. split; [exact Hmirror|].
  rewrite Hfs. cbn [fs]. split; [apply lookup_insert_eq|]. split; [|exact Hnone].
  rewrite lookup_insert_ne by (apply not_eq_sym, validation_test_paths_differ).
  exact Hsnap.
Qed.

(** *** Further properties of the normalizer *)

Lemma append_length (a b : string) :
  String.length (a +:+ b) = (String.length a + String.length b)%nat.
Proof. induction a as [|x a IH]; [reflexivity|]. simpl. f_equal. exact IH. Qed.

Lemma append_inv_tail (c : string) : forall a b : string, a +:+ c = b +:+ c -> a = b.
Proof.
  induction a as [|x a IH]; intros [|y b] H.
  - reflexivity.
  - apply (f_equal String.length) in H. rewrite !append_length in H. cbn in H. lia.
  - apply (f_equal String.length) in H. rewrite !append_length in H. cbn in H. lia.
  - cbn in H. injection H as -> H. f_equal. now apply IH.
Qed.

Lemma prompt_text_inj (s1 s2 : string) :
  prompt_text (VStr s1) = prompt_text (VStr s2) -> s1 = s2.
Proof.
  unfold prompt_text, format_value. intros H.
  apply append_inv_head in H. now apply append_inv_tail in H.
Qed.

(** X6: the prompt keeps the question as it is, neither cut nor escaped:
    two different question strings never get the same prompt text. *)
Theorem distinct_questions_distinct_prompts (s1 s2 : string) :
  s1 <> s2 -> prompt_text (VStr s1) <> prompt_text (VStr s2).
Proof. intros Hne H. apply Hne. now apply prompt_text_inj. Qed.

Lemma starts_with_sep_parquet name :
  starts_with_sep name = false -> starts_with_sep (name +:+ ".parquet") = false.
Proof. destruct name as [|c name]; [reflexivity | exact (fun H => H)]. Qed.

(** Two split names give two snapshot paths. *)
Lemma snapshot_path_inj local_dir a b :
  starts_with_sep a = false -> starts_with_sep b = false ->
  snapshot_path local_dir a = snapshot_path local_dir b -> a = b.
Proof.
  intros Ha Hb. unfold snapshot_path, path_join.
  rewrite (starts_with_sep_parquet a Ha), (starts_with_sep_parquet b Hb).
  destruct (is_empty local_dir || ends_with_sep local_dir); intros H.
  - apply append_inv_head in H. now apply append_inv_tail in H.
  - do 2 apply append_inv_head in H. now apply append_inv_tail in H.
Qed.

(** The loop over the splits, however it ends, changes no path that is not
    the snapshot path of one of the splits. *)
Lemma write_loop_footprint local_dir data_source (d : dataset_dict) : forall w,
  exists r w',
    for_each d (write_split local_dir data_source) w = (r, w')
    /\ hub w' = hub w /\ hdfs w' = hdfs w
    /\ forall p, (forall name, name ∈ map fst d -> p <> snapshot_path local_dir name) ->
                 fs w' !! p = fs w !! p.
Proof.
  induction d as [|[name recs] d IH]; intros w.
  - exists (Ok tt), w. repeat split; reflexivity.
  - cbn [for_each].
    destruct (decide (Forall (fun ex : gmap string value => is_Some (ex !! "question"))
                             (examples recs)))
      as [Hall|Hnot].
    + destruct (write_split_ok local_dir data_source name recs w Hall) as (rows & _ & Hrun).
      erewrite bind_ok by exact Hrun.
      match goal with |- context [for_each d _ ?w0] =>
        destruct (IH w0) as (r & w' & Hloop & Hh & Hr & Hfs) end.
      cbn [hub fs hdfs out] in *.
      exists r, w'. split; [exact Hloop|]. split; [exact Hh|]. split; [exact Hr|].
      intros p Hp. rewrite Hfs.
      * apply lookup_insert_ne. apply not_eq_sym, Hp. cbn. apply list_elem_of_here.
      * intros n Hn. apply Hp. cbn. now apply list_elem_of_further.
    + rewrite (bind_raise _ _ _ _ _ (write_split_missing local_dir data_source name recs w Hnot)).
      eexists _, _. split; [reflexivity|]. cbn [hub fs hdfs out]. repeat split; reflexivity.
Qed.

(** On a complete dataset whose split names are distinct and do not start
    with a separator, the loop leaves, for every split, the snapshot of the
    rows of that split. *)
Lemma write_loop_files local_dir data_source (d : dataset_dict) : forall w,
  complete d -> NoDup (map fst d) ->
  Forall (fun name => starts_with_sep name = false) (map fst d) ->
  exists w',
    for_each d (write_split local_dir data_source) w = (Ok tt, w')
    /\ forall name recs, (name, recs) ∈ d ->
         exists rows, normalize_split name data_source (examples recs) = Ok rows
                      /\ fs w' !! snapshot_path local_dir name = Some (Snapshot rows).
Proof.
  induction d as [|[name recs] d IH]; intros w Hc Hnd Hsep.
  - exists w. split; [reflexivity|]. intros n r H. now apply elem_of_nil in H.
  - cbn [for_each]. inversion Hc as [|? ? Hall Hc']; subst. cbn in Hall.
    cbn in Hnd, Hsep. apply NoDup_cons in Hnd as [Hfresh Hnd].
    apply Forall_cons in Hsep as [Hname Hsep].
    destruct (write_split_ok local_dir data_source name recs w Hall) as (rows & Hrows & Hrun).
    erewrite bind_ok by exact Hrun.
    match goal with |- context [for_each d _ ?w0] => set (w1 := w0) end.
    destruct (IH w1 Hc' Hnd Hsep) as (w' & Hloop & Hfiles).
    destruct (write_loop_footprint local_dir data_source d w1)
      as (r2 & w2 & Hloop2 & _ & _ & Hother).
    rewrite Hloop in Hloop2. injection Hloop2 as <- <-.
    exists w'. split; [exact Hloop|].
    intros n r Hin. apply elem_of_cons in Hin as [Heq|Hin]; [|now apply Hfiles].
    injection Heq as -> ->. exists rows. split; [exact Hrows|].
    rewrite Hother.
    + subst w1. cbn [fs]. apply lookup_insert_eq.
    + intros n Hn Heq. apply Hfresh.
      rewrite (snapshot_path_inj local_dir name n Hname) ; [exact Hn| |exact Heq].
      rewrite Forall_forall in Hsep. now apply Hsep.
Qed.

Lemma duplicate_validation_footprint local_dir splits w :
  exists r w',
    duplicate_validation local_dir splits w = (r, w')
    /\ hub w' = hub w /\ hdfs w' = hdfs w
    /\ (forall p, p <> snapshot_path local_dir "test" -> fs w' !! p = fs w !! p)
    /\ ("test" ∈ splits -> fs w' = fs w).
Proof.
  unfold duplicate_validation.
  destruct (bool_decide ("validation" ∈ splits)); cbn [andb];
    [|exists (Ok tt), w; repeat split; reflexivity].
  destruct (bool_decide ("test" ∈ splits)) eqn:Htest; cbn [negb].
  { exists (Ok tt), w. repeat split; reflexivity. }
  apply bool_decide_eq_false in Htest.
  erewrite bind_ok by apply print_logs. cbn beta.
  erewrite bind_ok by (unfold path_exists, gets; reflexivity). cbn beta.
  cbn [hub fs hdfs out].
  destruct (fs w !! path_join local_dir "validation.parquet") as [f|] eqn:Hsrc.
  - rewrite bool_decide_eq_true_2 by eauto.
    unfold shutil_copy. cbn [hub fs hdfs out]. rewrite Hsrc.
    rewrite bool_decide_eq_false_2 by apply validation_test_paths_differ.
    eexists _, _. split; [reflexivity|]. cbn [hub fs hdfs out].
    split; [reflexivity|]. split; [reflexivity|]. split; [|contradiction].
    intros p Hp. apply lookup_insert_ne. apply not_eq_sym, Hp.
  - rewrite bool_decide_eq_false_2 by (intros [? ?]; discriminate).
    eexists _, _. split; [reflexivity|]. cbn [hub fs hdfs out].
    repeat split; reflexivity.
Qed.

Lemma mirror_footprint local_dir hdfs_dir w :
  hub (snd (mirror local_dir hdfs_dir w)) = hub w
  /\ fs (snd (mirror local_dir hdfs_dir w)) = fs w
  /\ (hdfs_dir = None -> hdfs (snd (mirror local_dir hdfs_dir w)) = hdfs w).
Proof.
  destruct hdfs_dir as [d|]; cbn [mirror].
  - erewrite bind_ok by apply print_logs.
    unfold bind, remote_makedirs, remote_copy. cbn [hub fs hdfs out].
    destruct (hdfs_makedirs d (hdfs w)) as [[[]|e] h]; cbn [hub fs hdfs out].
    + destruct (hdfs_copy (fs w) local_dir d h) as [r h'].
      repeat split; discriminate.
    + repeat split; discriminate.
  - repeat split.
Qed.

(** What follows the loop over the splits changes at most [test.parquet],
    and nothing when the source has a [test] split. *)
Lemma after_loop_footprint (a : args) splits w :
  exists r w',
    (duplicate_validation (expanduser (local_dir a)) splits ;;
     mirror (expanduser (local_dir a)) (hdfs_dir a)) w = (r, w')
    /\ hub w' = hub w
    /\ (forall p, p <> snapshot_path (expanduser (local_dir a)) "test" ->
                  fs w' !! p = fs w !! p)
    /\ ("test" ∈ splits -> fs w' = fs w)
    /\ (hdfs_dir a = None -> hdfs w' = hdfs w)
    /\ (hdfs_dir a = None -> is_ok r = true).
Proof.
  destruct (duplicate_validation_footprint (expanduser (local_dir a)) splits w)
    as (r1 & w1 & Hdup & Hh1 & Hr1 & Hfs1 & Htest1).
  assert (Hok : is_ok r1 = true).
  { revert Hdup. unfold duplicate_validation.
    destruct (bool_decide ("validation" ∈ splits) && negb (bool_decide ("test" ∈ splits)));
      [|unfold ret; now intros [= <- _]].
    erewrite bind_ok by apply print_logs. cbn beta.
    erewrite bind_ok by (unfold path_exists, gets; reflexivity). cbn beta.
    cbn [hub fs hdfs out].
    destruct (fs w !! path_join (expanduser (local_dir a)) "validation.parquet") as [f|] eqn:Hsrc.
    - rewrite bool_decide_eq_true_2 by eauto.
      unfold shutil_copy. cbn [hub fs hdfs out]. rewrite Hsrc.
      rewrite bool_decide_eq_false_2 by apply validation_test_paths_differ.
      now intros [= <- _].
    - rewrite bool_decide_eq_false_2 by (intros [? ?]; discriminate).
      unfold ret. now intros [= <- _]. }
  destruct r1 as [[]|e]; [|discriminate Hok].
  erewrite bind_ok by exact Hdup.
  destruct (mirror_footprint (expanduser (local_dir a)) (hdfs_dir a) w1) as (Hh2 & Hfs2 & Hr2).
  destruct (mirror_run (expanduser (local_dir a)) (hdfs_dir a) w1) as (r & w' & Hmirror & _ & Hnone).
  rewrite Hmirror in Hh2, Hfs2, Hr2. cbn [snd] in Hh2, Hfs2, Hr2.
  exists r, w'. split; [exact Hmirror|]. split; [congruence|].
  split; [intros p Hp; rewrite Hfs2; now apply Hfs1|].
  split; [intros Ht; rewrite Hfs2; now apply Htest1|].
  split; [intros Hn; rewrite (Hr2 Hn); exact Hr1|].
  intros Hn. now rewrite (Hnone Hn).
Qed.

(** X8: on a source whose examples all have a question and whose split
    names are distinct and free of a leading separator, the run leaves, for
    every split, a snapshot file [<local_dir>/<split>.parquet] that holds
    exactly the normalized rows of that split; the copy of the validation
    snapshot overwrites none of them. *)
Theorem snapshots_hold_their_split (a : args) (w : world) (d : dataset_dict) :
  hub w !! source_repo = Some d ->
  is_empty (expanduser (local_dir a)) = false ->
  fs w !! expanduser (local_dir a) = None ->
  complete d ->
  NoDup (map fst d) ->
  Forall (fun name => starts_with_sep name = false) (map fst d) ->
  exists r w',
    main a w = (r, w')
    /\ (hdfs_dir a = None -> r = Ok tt)
    /\ forall name recs, (name, recs) ∈ d ->
         exists rows,
           normalize_split name source_repo (examples recs) = Ok rows
           /\ fs w' !! snapshot_path (expanduser (local_dir a)) name = Some (Snapshot rows).
Proof.
  intros Hhub Hne Hfree Hc Hnd Hsep.
  change (main a w) with
    (main_upto_loop a (fun splits =>
       duplicate_validation (expanduser (local_dir a)) splits ;;
       mirror (expanduser (local_dir a)) (hdfs_dir a)) w).
  destruct (main_prefix a w d
              (fun splits =>
                 duplicate_validation (expanduser (local_dir a)) splits ;;
                 mirror (expanduser (local_dir a)) (hdfs_dir a)) Hhub Hne Hfree)
    as (r0 & w1 & Hloop & Hmain).
  destruct (write_loop_files (expanduser (local_dir a)) source_repo d
              (World (hub w) (fs w) (hdfs w)
                     (out w ++ [Loading source_repo; FoundSplits (map fst d)]))
              Hc Hnd Hsep)
    as (w1' & Hloop' & Hfiles).
  rewrite Hloop in Hloop'. injection Hloop' as -> <-.
  rewrite Hmain.
  destruct (after_loop_footprint a (map fst d) w1)
    as (r & w' & Hrest & _ & Hfs & Htest & _ & Hok).
  exists r, w'. split; [exact Hrest|]. split.
  - intros Hn. specialize (Hok Hn). destruct r as [[]|]; [reflexivity|discriminate].
  - intros name recs Hin. destruct (Hfiles name recs Hin) as (rows & Hrows & Hfile).
    exists rows. split; [exact Hrows|].
    destruct (decide ("test" ∈ map fst d)) as [Ht|Ht].
    + rewrite (Htest Ht). exact Hfile.
    + rewrite Hfs; [exact Hfile|].
      intros Heq. apply Ht.
      assert (Hname : name ∈ map fst d) by (apply list_elem_of_fmap; exists (name, recs); auto).
      rewrite Forall_forall in Hsep.
      rewrite <- (snapshot_path_inj _ name "test" (Hsep _ Hname) eq_refl Heq).
      exact Hname.
Qed.

Lemma map_rows_origin split data_source (examples : list (gmap string value)) : forall idx rows r,
  map_with_indices (map_example split data_source) examples idx = Ok rows ->
  r ∈ rows ->
  exists example i, map_example split data_source example i = Ok r.
Proof.
  induction examples as [|ex examples IH]; intros idx rows r Hrun Hin; cbn in Hrun.
  - injection Hrun as <-. now apply elem_of_nil in Hin.
  - destruct (map_example split data_source ex idx) as [r0|e] eqn:Hr0; [|discriminate].
    destruct (map_with_indices _ examples (S idx)) as [rs|e] eqn:Hrs; [|discriminate].
    injection Hrun as <-. apply elem_of_cons in Hin as [->|Hin]; eauto.
Qed.

(** X9: every row a split is mapped to has the fixed shape: the given data
    source and split name, ability [math], the placeholder reward
    specification, and a prompt of exactly one message, of role [user]. *)
Theorem normalized_rows_schema (split_name data_source : string)
    (hf_split : list (gmap string value)) (rows : list row) (r : row) :
  normalize_split split_name data_source hf_split = Ok rows ->
  r ∈ rows ->
  Normalizer.data_source (fields r) = data_source
  /\ ability (fields r) = "math"
  /\ reward_model (fields r) = {| style := "llm_as_a_judge"; ground_truth := "0" |}
  /\ split (extra_info (fields r)) = split_name
  /\ exists text, prompt (fields r) = [ {| role := "user"; content := text |} ].
Proof.
  intros Hrun Hin.
  destruct (map_rows_origin split_name data_source hf_split 0 rows r Hrun Hin)
    as (ex & i & Hr).
  unfold map_example, _process_fn in Hr.
  destruct (ex !! "question") as [q|]; [|discriminate].
  injection Hr as <-. cbn. repeat split. eauto.
Qed.

End WithLibraries.

Arguments World {remote} hub fs hdfs out.
Arguments hub {remote} w.
Arguments fs {remote} w.
Arguments hdfs {remote} w.
Arguments out {remote} w.

(** The two records of the scenario of the specification, and one without
    a question. *)
Definition two_plus_two : gmap string value := {["question" := VStr "2+2?"]}.
Definition three_plus_three : gmap string value :=
  {["question" := VStr "3+3?"; "answer" := VInt 6]}.
Definition no_question : gmap string value := {["answer" := VInt 7]}.

Definition good_world : world (list remote_call) :=
  World {[source_repo :=
            [("train", Table ["question"; "answer"] [two_plus_two; three_plus_three]);
             ("validation", Table ["question"; "answer"] [three_plus_three])]]}
        ∅ [] [].

(** The validation split has a [question] column, and a record that gives
    no question. *)
Definition bad_world : world (list remote_call) :=
  World {[source_repo :=
            [("train", Table ["question"] [two_plus_two]);
             ("validation", Table ["question"; "answer"] [three_plus_three; no_question])]]}
        ∅ [] [].

(** The validation split has no [question] column. *)
Definition columnless_world : world (list remote_call) :=
  World {[source_repo :=
            [("train", Table ["question"] [two_plus_two]);
             ("validation", Table ["answer"] [no_question])]]}
        ∅ [] [].

Definition run_main (a : args) (w : world (list remote_call))
    : result unit * world (list remote_call) :=
  main simple_str home_expand (list remote_call) log_makedirs log_copy a w.

Definition data_args : args := Args "~/data" None.
Definition mirror_args : args := Args "~/data" (Some "hdfs://store/olympic").

Example good_run_messages :
  fst (run_main data_args good_world) = Ok tt
  /\ out (snd (run_main data_args good_world))
     = [Loading "xiaomama2002/olympic_dataset"; FoundSplits ["train"; "validation"];
        Processing "train"; Writing "/home/user/data/train.parquet";
        Processing "validation"; Writing "/home/user/data/validation.parquet";
        Duplicating "/home/user/data/validation.parquet" "/home/user/data/test.parquet"].
Proof. split; vm_compute; reflexivity. Qed.

Example mirrored_run_calls :
  fst (run_main mirror_args good_world) = Ok tt
  /\ hdfs (snd (run_main mirror_args good_world))
     = [EnsureDirectory "hdfs://store/olympic";
        CopyTree "/home/user/data" "hdfs://store/olympic"].
Proof. split; vm_compute; reflexivity. Qed.

Example columnless_run_leaves_train_only :
  fst (run_main mirror_args columnless_world) = Raise (KeyError "question")
  /\ is_Some (fs (snd (run_main mirror_args columnless_world)) !! "/home/user/data/train.parquet")
  /\ fs (snd (run_main mirror_args columnless_world)) !! "/home/user/data/validation.parquet" = None
  /\ fs (snd (run_main mirror_args columnless_world)) !! "/home/user/data/test.parquet" = None
  /\ hdfs (snd (run_main mirror_args columnless_world)) = [].
Proof. repeat split; vm_compute; eauto. Qed.

(** The row the record without a question is mapped to. *)
Definition null_question_row : row :=
  {| carried := {["answer" := VInt 7]};
     fields :=
       {| data_source := source_repo;
          prompt := [ {| role := "user"; content := prompt_text simple_str VNone |} ];
          ability := "math";
          reward_model := {| style := "llm_as_a_judge"; ground_truth := "0" |};
          extra_info := {| split := "validation"; index := 1; question := VNone |} |} |}.

(** On [bad_world] the run ends normally; the record without a question is
    in both snapshots of the validation split, with the text [None] where
    the question goes. *)
Example null_question_run :
  fst (run_main data_args bad_world) = Ok tt
  /\ (exists r, fs (snd (run_main data_args bad_world)) !! "/home/user/data/validation.parquet"
                 = Some (Snapshot [r; null_question_row]))
  /\ fs (snd (run_main data_args bad_world)) !! "/home/user/data/test.parquet"
     = fs (snd (run_main data_args bad_world)) !! "/home/user/data/validation.parquet"
  /\ format_value simple_str VNone = "None".
Proof.
  split; [vm_compute; reflexivity|].
  split; [eexists; vm_compute; reflexivity|].
  split; vm_compute; reflexivity.
Qed.

(** C7, as stated, fails: a record of the validation split of [bad_world]
    has no [question], and the run ends normally. *)
Lemma record_without_question_is_normalized :
  ~ aborts_on_record_without_question simple_str home_expand (list remote_call)
      log_makedirs log_copy data_args bad_world.
Proof.
  intros H.
  specialize (H _ "validation" (Table ["question"; "answer"] [three_plus_three; no_question])
                no_question eq_refl).
  assert (Hok : is_ok (fst (run_main data_args bad_world)) = true)
    by (vm_compute; reflexivity).
  unfold run_main in Hok. rewrite H in Hok; [discriminate| | |reflexivity].
  - apply list_elem_of_further, list_elem_of_here.
  - apply list_elem_of_further, list_elem_of_here.
Qed.

Lemma normalize_split_traceable_witness :
  exists rows,
    normalize_split simple_str "train" source_repo [two_plus_two; three_plus_three] = Ok rows
    /\ length rows = 2%nat
    /\ forall i r, rows !! i = Some r ->
         index (extra_info (fields r)) = i
         /\ exists raw, [two_plus_two; three_plus_three] !! i = Some raw
                        /\ raw !! "question" = Some (question (extra_info (fields r))).
Proof.
  apply (normalize_split_traceable simple_str "train" source_repo
           [two_plus_two; three_plus_three]).
  repeat constructor; eexists; reflexivity.
Defined.

Lemma missing_question_column_aborts_witness :
  exists w',
    run_main mirror_args columnless_world = (Raise (KeyError "question"), w')
    /\ hub w' = hub columnless_world
    /\ hdfs w' = hdfs columnless_world
    /\ written_by_splits simple_str (home_expand (local_dir mirror_args)) source_repo
         [("train", Table ["question"] [two_plus_two]);
          ("validation", Table ["answer"] [no_question])]
         (fs columnless_world) (fs w').
Proof.
  apply (missing_question_column_aborts simple_str home_expand (list remote_call)
           log_makedirs log_copy mirror_args columnless_world
           [("train", Table ["question"] [two_plus_two]);
            ("validation", Table ["answer"] [no_question])]
           "validation" (Table ["answer"] [no_question])).
  - reflexivity.
  - reflexivity.
  - reflexivity.
  - apply list_elem_of_further, list_elem_of_here.
  - cbn. intros Hin. repeat (apply elem_of_cons in Hin as [Hin|Hin]; [discriminate|]).
    now apply elem_of_nil in Hin.
  - discriminate.
Defined.

Lemma validation_duplicated_as_test_witness :
  exists r w' snapshot,
    run_main data_args good_world = (r, w')
    /\ fs w' !! "/home/user/data/test.parquet" = Some snapshot
    /\ fs w' !! "/home/user/data/validation.parquet" = Some snapshot
    /\ (hdfs_dir data_args = None -> r = Ok tt).
Proof.
  apply (validation_duplicated_as_test simple_str home_expand (list remote_call)
           log_makedirs log_copy data_args good_world
           [("train", Table ["question"; "answer"] [two_plus_two; three_plus_three]);
            ("validation", Table ["question"; "answer"] [three_plus_three])]).
  - reflexivity.
  - reflexivity.
  - reflexivity.
  - repeat constructor; eexists; reflexivity.
  - apply list_elem_of_further, list_elem_of_here.
  - intros Hin. repeat (apply elem_of_cons in Hin as [Hin|Hin]; [discriminate|]).
    now apply elem_of_nil in Hin.
Defined.

(** The rows of the train split of [good_world]. *)
Definition first_row : row :=
  {| carried := ∅;
     fields :=
       {| data_source := source_repo;
          prompt := [ {| role := "user"; content := prompt_text simple_str (VStr "2+2?") |} ];
          ability := "math";
          reward_model := {| style := "llm_as_a_judge"; ground_truth := "0" |};
          extra_info := {| split := "train"; index := 0; question := VStr "2+2?" |} |} |}.

Definition second_row : row :=
  {| carried := {["answer" := VInt 6]};
     fields :=
       {| data_source := source_repo;
          prompt := [ {| role := "user"; content := prompt_text simple_str (VStr "3+3?") |} ];
          ability := "math";
          reward_model := {| style := "llm_as_a_judge"; ground_truth := "0" |};
          extra_info := {| split := "train"; index := 1; question := VStr "3+3?" |} |} |}.

Example train_rows :
  normalize_split simple_str "train" source_repo [two_plus_two; three_plus_three]
    = Ok [first_row; second_row].
Proof. vm_compute. reflexivity. Qed.

Lemma distinct_questions_distinct_prompts_witness :
  prompt_text simple_str (VStr "2+2?") <> prompt_text simple_str (VStr "3+3?").
Proof.
  apply (distinct_questions_distinct_prompts simple_str "2+2?" "3+3?").
  discriminate.
Defined.

Lemma snapshots_hold_their_split_witness :
  exists r w',
    run_main data_args good_world = (r, w')
    /\ (hdfs_dir data_args = None -> r = Ok tt)
    /\ forall name recs,
         (name, recs) ∈ [("train", Table ["question"; "answer"] [two_plus_two; three_plus_three]);
                         ("validation", Table ["question"; "answer"] [three_plus_three])] ->
         exists rows,
           normalize_split simple_str name source_repo (examples recs) = Ok rows
           /\ fs w' !! snapshot_path (home_expand (local_dir data_args)) name
              = Some (Snapshot rows).
Proof.
  apply (snapshots_hold_their_split simple_str home_expand (list remote_call)
           log_makedirs log_copy data_args good_world
           [("train", Table ["question"; "answer"] [two_plus_two; three_plus_three]);
            ("validation", Table ["question"; "answer"] [three_plus_three])]).
  - reflexivity.
  - reflexivity.
  - reflexivity.
  - repeat constructor; eexists; reflexivity.
  - repeat constructor; intros Hin;
      repeat (apply elem_of_cons in Hin as [Hin|Hin]; [discriminate|]);
      now apply elem_of_nil in Hin.
  - repeat constructor.
Defined.

Lemma normalized_rows_schema_witness :
  data_source (fields second_row) = source_repo
  /\ ability (fields second_row) = "math"
  /\ reward_model (fields second_row) = {| style := "llm_as_a_judge"; ground_truth := "0" |}
  /\ split (extra_info (fields second_row)) = "train"
  /\ exists text, prompt (fields second_row) = [ {| role := "user"; content := text |} ].
Proof.
  apply (normalized_rows_schema simple_str "train" source_repo
           [two_plus_two; three_plus_three] [first_row; second_row] second_row).
  - vm_compute. reflexivity.
  - apply list_elem_of_further, list_elem_of_here.
Defined.

End Normalizer.

(** * Splitter/uploader ([examples/data_preprocess/split_and_upload_olympic.py]) *)

Module Splitter.

(** A stand-in for numpy's generator, to run the splitter on examples: a
    linear congruential sequence that draws the positions one by one. *)
Definition lcg_next (x : Z) : Z := ((x * 1103515245 + 12345) mod 2147483648)%Z.

Fixpoint remove_nth {A} (i : nat) (l : list A) : list A :=
  match l, i with
  | [], _ => []
  | _ :: l', O => l'
  | x :: l', S i' => x :: remove_nth i' l'
  end.

Fixpoint draw (fuel : nat) (x : Z) (pool : list nat) : list nat :=
  match fuel with
  | O => []
  | S fuel' =>
      let i := Z.to_nat (x mod Z.of_nat (length pool)) in
      match pool !! i with
      | Some p => p :: draw fuel' (lcg_next x) (remove_nth i pool)
      | None => []
      end
  end.

Definition lcg_permutation (seed : Z) (n : nat) : list nat :=
  draw n (lcg_next seed) (seq 0 n).

(** A stand-in for the rounding of a double product: none. *)
Definition exact (x : Q) : Q := x.

(** The command line as typed: absent options are [None]. *)
Record command_line : Type := CommandLine {
  cli_original_repo : option string;
  cli_test_size : option Q;
  cli_hf_token : option string;
  cli_seed : option Z;
  cli_private : bool
}.

(** The parsed arguments.  [test_size] is a finite double, hence a rational. *)
Record args : Type := Args {
  original_repo : string;
  test_size : Q;
  hf_token : option string;
  seed : Z;
  private : bool
}.

(** The double nearest to 0.2, the default of [--test_size]. *)
Definition default_test_size : Q := 3602879701896397 # 18014398509481984.

(** [parser.parse_args()] with the defaults given to [add_argument]; the
    default of [--hf_token] is [os.getenv("HF_TOKEN")]. *)
Definition parse_args (cli : command_line) (env : gmap string string) : args :=
  {| original_repo := default "xiaomama2002/olympic_dataset" (cli_original_repo cli);
     test_size := default default_test_size (cli_test_size cli);
     hf_token := match cli_hf_token cli with
                 | Some t => Some t
                 | None => env !! "HF_TOKEN"
                 end;
     seed := default 42%Z (cli_seed cli);
     private := cli_private cli |}.

(** [not args.hf_token]: no token, or an empty one. *)
Definition token_missing (t : option string) : bool :=
  match t with
  | None | Some EmptyString => true
  | Some (String _ _) => false
  end.

Inductive message : Type :=
  | LoadingOriginal (repo : string)
  | Shuffling (seed : Z)
  | Splitting (test_size : Q)
  | Uploading (repo : string) (private : bool)
  | UploadComplete (repo : string).

(** What a run does that is visible outside the process. *)
Inductive event : Type :=
  | Print (m : message)
  | Download (repo : string)
  | Upload (repo : string) (private : bool) (token : string).

Definition is_io (e : event) : bool :=
  match e with
  | Print _ => false
  | Download _ | Upload _ _ _ => true
  end.

Section WithLibraries.

(** A row of the dataset; the script never looks inside one. *)
Variable record : Type.

(** numpy: [np.random.default_rng(seed).permutation(n)], a rearrangement of
    [0 .. n-1]. *)
Variable permutation : Z -> nat -> list nat.
Hypothesis permutation_perm : forall seed n, Permutation (permutation seed n) (seq 0 n).

(** The rounding of a real product to a double: monotone, and exact on the
    integers a double holds. *)
Variable fl : Q -> Q.
Hypothesis fl_mono : forall x y, (x <= y)%Q -> (fl x <= fl y)%Q.
Hypothesis fl_int : forall z, (Z.abs z <= 2 ^ 53)%Z -> (fl (inject_Z z) == inject_Z z)%Q.

(** The hub: whether it takes an upload to a repository with a token. *)
Variable hub_accepts : string -> string -> bool.

(** The hub's datasets; the word numpy's global generator, seeded from the
    operating system when the process starts, hands out as a seed; the
    seed of Python's own [random] module, once set; the trace. *)
Record world : Type := World {
  hub : gmap string (list (string * list record));
  np_global : Z;
  py_random : option Z;
  trace : list event
}.

Definition emit (e : event) : M world unit :=
  modify (fun w => World (hub w) (np_global w) (py_random w) (trace w ++ [e])).

Definition print (m : message) : M world unit := emit (Print m).

Definition lift {A} (r : result A) : M world A := fun w => (r, w).

(** [datasets.load_dataset(repo)] *)
Definition load_dataset (repo : string) : M world (list (string * list record)) :=
  emit (Download repo) ;;
  fun w =>
    match hub w !! repo with
    | Some d => (Ok d, w)
    | None => (Raise (DatasetNotFoundError repo), w)
    end.

(** [original[name]], and [name in original] as [is_Some]. *)
Fixpoint get_split (name : string) (d : list (string * list record))
    : option (list record) :=
  match d with
  | [] => None
  | (k, rows) :: d' => if bool_decide (k = name) then Some rows else get_split name d'
  end.

(** [random.seed(s)] *)
Definition random_seed (s : Z) : M world unit :=
  modify (fun w => World (hub w) (np_global w) (Some s) (trace w)).

(** [Dataset.select(indices)]; the indices below come from a permutation
    of the row positions, so each of them finds its row. *)
Definition select (rows : list record) (indices : list nat) : list record :=
  omap (fun i => rows !! i) indices.

(** [np.random.default_rng(seed)] *)
Definition default_rng (seed : Z) : result Z :=
  if (seed <? 0)%Z then Raise (ValueError (NegativeSeed seed)) else Ok seed.

(** [Dataset.shuffle(seed=seed)]: a dataset without rows comes back as it
    is, before a generator is made. *)
Definition shuffle (rows : list record) (seed : Z) : result (list record) :=
  match rows with
  | [] => Ok []
  | _ :: _ =>
      match default_rng seed with
      | Raise e => Raise e
      | Ok generator => Ok (select rows (permutation generator (length rows)))
      end
  end.

(** The sizes [train_test_split] settles on for a float [test_size]. *)
Definition n_test (test_size : Q) (n_samples : nat) : Z :=
  Qceiling (fl (test_size * inject_Z (Z.of_nat n_samples))).

Definition n_train (test_size : Q) (n_samples : nat) : Z :=
  (Z.of_nat n_samples - n_test test_size n_samples)%Z.

(** [Dataset.train_test_split(test_size=test_size)].  A dataset without
    rows is handed back as both splits before [test_size] is looked at.
    Otherwise [shuffle] keeps its default [True] and [seed], [generator]
    their default [None], so the generator is seeded with a word of numpy's
    global state.  The first [n_test] positions of its permutation go to
    [test], the next [n_train] to [train]. *)
Definition train_test_split (rows : list record) (test_size : Q)
    : M world (list record * list record) :=
  fun w =>
    match rows with
    | [] => (Ok ([], []), w)
    | _ :: _ =>
        let n_samples := length rows in
        if Qle_bool test_size 0 || Qle_bool 1 test_size
        then (Raise (ValueError TestSizeOutOfRange), w)
        else if (n_train test_size n_samples =? 0)%Z
        then (Raise (ValueError EmptyTrainSet), w)
        else
          let perm := permutation (np_global w) n_samples in
          let test_indices := firstn (Z.to_nat (n_test test_size n_samples)) perm in
          let train_indices :=
            firstn (Z.to_nat (n_train test_size n_samples))
                   (skipn (Z.to_nat (n_test test_size n_samples)) perm) in
          (Ok (select rows train_indices, select rows test_indices), w)
    end.

(** [DatasetDict.push_to_hub(repo, private=private, token=token)] *)
Definition push_to_hub (d : list (string * list record)) (repo : string)
    (private : bool) (token : string) : M world unit :=
  emit (Upload repo private token) ;;
  fun w =>
    if hub_accepts repo token
    then (Ok tt, World (<[repo := d]> (hub w)) (np_global w) (py_random w) (trace w))
    else (Raise (HubHTTPError repo), w).

(** [if not args.hf_token] is the first two cases: [token_missing]. *)
Definition main (a : args) : M world unit :=
  match hf_token a with
  | None | Some EmptyString => raise (ValueError TokenRequired)
  | Some (String c t) =>
      let token := String c t in
      print (LoadingOriginal (original_repo a)) ;;
      original <- load_dataset (original_repo a) ;;
      match get_split "train" original with
      | None => raise (ValueError (NoTrainSplit (map fst original)))
      | Some train_split =>
          print (Shuffling (seed a)) ;;
          random_seed (seed a) ;;
          shuffled <- lift (shuffle train_split (seed a)) ;;
          print (Splitting (test_size a)) ;;
          split_dict <- train_test_split shuffled (test_size a) ;;
          let new_dataset := [("train", fst split_dict); ("test", snd split_dict)] in
          print (Uploading (original_repo a) (private a)) ;;
          push_to_hub new_dataset (original_repo a) (private a) token ;;
          print (UploadComplete (original_repo a))
      end
  end.

(** *** Properties of a run *)

(** [train] and [test] split [records] exactly: they are selected by two
    index lists that together hold every position of [records] once. *)
Definition partition_of (records train test : list record) : Prop :=
  exists train_idx test_idx,
    Permutation (train_idx ++ test_idx) (seq 0 (length records))
    /\ train = select records train_idx
    /\ test = select records test_idx.

(** The dataset a run publishes, if it gets that far. *)
Definition published (a : args) (w : world) : option (list (string * list record)) :=
  match main a w with
  | (Ok _, w') => hub w' !! original_repo a
  | (Raise _, _) => None
  end.

(** [test] holds the records of a run of consecutive positions of
    [shuffled], and [train] those of the positions around it. *)
Definition contiguous_fraction (shuffled train test : list record) : Prop :=
  exists before middle after,
    shuffled = before ++ middle ++ after
    /\ Permutation middle test
    /\ Permutation (before ++ after) train.

(** The positions, in the shuffled sequence, that [train_test_split] gives
    to [test] and to [train]. *)
Definition test_positions (a : args) (w : world) (n_samples : nat) : list nat :=
  firstn (Z.to_nat (n_test (test_size a) n_samples)) (permutation (np_global w) n_samples).

Definition train_positions (a : args) (w : world) (n_samples : nat) : list nat :=
  firstn (Z.to_nat (n_train (test_size a) n_samples))
         (skipn (Z.to_nat (n_test (test_size a) n_samples))
                (permutation (np_global w) n_samples)).

Definition shuffled_rows (a : args) (records : list record) : list record :=
  select records (permutation (seed a) (length records)).

(** [original_repo a] is on the hub and has no split named [train]. *)
Definition no_train_split (a : args) (w : world) : Prop :=
  exists d, hub w !! original_repo a = Some d /\ get_split "train" d = None.

(** C3 as the specification states it: a run that lacks its credential, or
    whose source lacks a [train] split, fails without any network or disk
    event. *)
Definition aborts_before_any_io (a : args) (w : world) : Prop :=
  token_missing (hf_token a) = true \/ no_train_split a w ->
  is_ok (fst (main a w)) = false
  /\ List.filter is_io (trace (snd (main a w))) = List.filter is_io (trace w).

(** *** Selecting rows by position *)

Lemma select_seq_from {A} (front rows : list A) :
  omap (fun i => (front ++ rows) !! i) (seq (length front) (length rows)) = rows.
Proof.
  revert front. induction rows as [|x rows IH]; intros front; [reflexivity|].
  cbn [length seq omap list_omap]. rewrite list_lookup_middle by reflexivity.
  f_equal. specialize (IH (front ++ [x])).
  rewrite <- app_assoc, length_app in IH. cbn in IH.
  rewrite Nat.add_1_r in IH. exact IH.
Qed.

Lemma select_seq (rows : list record) : select rows (seq 0 (length rows)) = rows.
Proof. exact (select_seq_from [] rows). Qed.

Lemma lookup_all_positions (indices : list nat) :
  omap (fun k => indices !! k) (seq 0 (length indices)) = indices.
Proof. exact (select_seq_from [] indices). Qed.

Lemma select_perm (rows : list record) indices :
  Permutation indices (seq 0 (length rows)) -> Permutation (select rows indices) rows.
Proof.
  intros H. unfold select. rewrite H. fold (select rows (seq 0 (length rows))).
  now rewrite select_seq.
Qed.

Lemma perm_in_range (indices : list nat) n :
  Permutation indices (seq 0 n) -> Forall (fun i => (i < n)%nat) indices.
Proof.
  intros H. apply Forall_forall. intros i Hi.
  apply list_elem_of_In in Hi. apply (Permutation_in _ H) in Hi.
  apply in_seq in Hi. lia.
Qed.

Lemma select_lookup (rows : list record) indices :
  Forall (fun i => (i < length rows)%nat) indices ->
  forall k, select rows indices !! k = indices !! k ≫= (fun i => rows !! i).
Proof.
  induction 1 as [|i indices Hi _ IH]; intros k; [reflexivity|].
  destruct (lookup_lt_is_Some_2 rows i Hi) as [x Hx].
  unfold select in *. cbn [omap list_omap]. rewrite Hx.
  destruct k as [|k]; cbn; [now rewrite Hx | apply IH].
Qed.

Lemma select_length (rows : list record) indices :
  Forall (fun i => (i < length rows)%nat) indices ->
  length (select rows indices) = length indices.
Proof.
  induction 1 as [|i indices Hi _ IH]; [reflexivity|].
  destruct (lookup_lt_is_Some_2 rows i Hi) as [x Hx].
  unfold select in *. cbn [omap list_omap]. rewrite Hx. cbn. now rewrite IH.
Qed.

(** Selecting from a selection is selecting by the composed positions. *)
Lemma select_select (rows : list record) first second :
  Forall (fun i => (i < length rows)%nat) first ->
  select (select rows first) second
    = select rows (omap (fun k => first !! k) second).
Proof.
  intros Hfirst. unfold select at 1 3.
  induction second as [|k second IH]; [reflexivity|].
  cbn [omap list_omap]. rewrite select_lookup by exact Hfirst.
  destruct (first !! k) as [i|]; cbn [mbind option_bind omap list_omap].
  - destruct (rows !! i); now rewrite IH.
  - exact IH.
Qed.

(** *** The sizes of the two splits *)

Lemma n_test_bounds (test_size : Q) (n_samples : nat) :
  (0 < test_size)%Q -> (test_size < 1)%Q ->
  (Z.of_nat n_samples < 2 ^ 53)%Z ->
  (0 <= n_test test_size n_samples <= Z.of_nat n_samples)%Z
  /\ (inject_Z (n_test test_size n_samples) - 1
        < test_size * inject_Z (Z.of_nat n_samples))%Q
  /\ (test_size * inject_Z (Z.of_nat n_samples)
        < inject_Z (n_test test_size n_samples) + 1)%Q.
Proof.
  intros Hpos Hlt Hbig. unfold n_test.
  set (K := Z.of_nat n_samples) in *.
  set (x := (test_size * inject_Z K)%Q).
  assert (HK : (0 <= inject_Z K)%Q)
    by (change (inject_Z 0 <= inject_Z K)%Q; rewrite <- Zle_Qle; lia).
  assert (Hx0 : (0 <= x)%Q).
  { unfold x. apply Qmult_le_0_compat; [apply Qlt_le_weak, Hpos | exact HK]. }
  assert (HxK : (x <= inject_Z K)%Q).
  { unfold x. rewrite <- (Qmult_1_l (inject_Z K)) at 2.
    apply Qmult_le_compat_r; [apply Qlt_le_weak, Hlt | exact HK]. }
  assert (Hy0 : (0 <= fl x)%Q).
  { rewrite <- (fl_int 0) by (cbn; lia). apply fl_mono, Hx0. }
  assert (HyK : (fl x <= inject_Z K)%Q).
  { rewrite <- (fl_int K) by lia. apply fl_mono, HxK. }
  set (m := Qceiling (fl x)).
  assert (Hm0 : (0 <= m)%Z).
  { change 0%Z with (Qceiling (inject_Z 0)). apply Qceiling_resp_le, Hy0. }
  assert (HmK : (m <= K)%Z).
  { rewrite <- (Qceiling_Z K). apply Qceiling_resp_le, HyK. }
  split; [lia|]. split.
  - destruct (Qlt_le_dec (inject_Z m - 1) x) as [H|H]; [exact H|exfalso].
    assert (Hle : (fl x <= inject_Z (m - 1))%Q).
    { rewrite <- (fl_int (m - 1)) by lia. apply fl_mono.
      unfold Z.sub. rewrite inject_Z_plus. exact H. }
    pose proof (Qceiling_lt (fl x)) as Hc. fold m in Hc.
    exact (Qlt_irrefl _ (Qlt_le_trans _ _ _ Hc Hle)).
  - destruct (Qlt_le_dec x (inject_Z m + 1)) as [H|H]; [exact H|exfalso].
    assert (Hle : (inject_Z (m + 1) <= fl x)%Q).
    { rewrite <- (fl_int (m + 1)) by lia. apply fl_mono.
      rewrite inject_Z_plus. exact H. }
    pose proof (Qle_ceiling (fl x)) as Hc. fold m in Hc.
    pose proof (Qle_trans _ _ _ Hle Hc) as Habs.
    rewrite <- Zle_Qle in Habs. lia.
Qed.

(** *** One successful run *)

Lemma n_train_empty (test_size : Q) : n_train test_size 0 = 0%Z.
Proof.
  assert (Hz : (test_size * inject_Z 0 == inject_Z 0)%Q) by apply Qmult_0_r.
  assert (H0 : (fl (inject_Z 0) == inject_Z 0)%Q) by (apply fl_int; cbn; lia).
  assert (Hfl : (fl (test_size * inject_Z 0) == inject_Z 0)%Q).
  { apply Qle_antisym.
    - apply Qle_trans with (fl (inject_Z 0)).
      + apply fl_mono. rewrite Hz. apply Qle_refl.
      + rewrite H0. apply Qle_refl.
    - apply Qle_trans with (fl (inject_Z 0)).
      + rewrite H0. apply Qle_refl.
      + apply fl_mono. rewrite Hz. apply Qle_refl. }
  assert (Hc : Qceiling (fl (test_size * inject_Z (Z.of_nat 0))) = 0%Z).
  { change (Z.of_nat 0) with 0%Z. rewrite (Qceiling_comp _ _ Hfl). apply Qceiling_Z. }
  unfold n_train, n_test. rewrite Hc. reflexivity.
Qed.

Lemma permutation_length s n : length (permutation s n) = n.
Proof. rewrite (Permutation_length (permutation_perm s n)). apply length_seq. Qed.

Lemma shuffled_rows_perm a records : Permutation (shuffled_rows a records) records.
Proof. apply select_perm, permutation_perm. Qed.

Lemma shuffled_rows_length a records : length (shuffled_rows a records) = length records.
Proof. apply Permutation_length, shuffled_rows_perm. Qed.

Lemma shuffled_rows_nonempty a records : records <> [] -> shuffled_rows a records <> [].
Proof.
  intros Hne Hnil. apply Hne, length_zero_iff_nil.
  now rewrite <- (shuffled_rows_length a), Hnil.
Qed.

Lemma shuffle_nonempty a records :
  records <> [] -> (0 <= seed a)%Z -> shuffle records (seed a) = Ok (shuffled_rows a records).
Proof.
  intros Hne Hseed. destruct records as [|r records]; [contradiction|].
  unfold shuffle, default_rng.
  now rewrite (proj2 (Z.ltb_ge (seed a) 0)) by exact Hseed.
Qed.

(** On a dataset that has rows, [train_test_split] checks [test_size] and
    the two sizes before it draws its permutation. *)
Lemma train_test_split_nonempty (rows : list record) (test_size : Q) (w : world) :
  rows <> [] ->
  train_test_split rows test_size w
    = if Qle_bool test_size 0 || Qle_bool 1 test_size
      then (Raise (ValueError TestSizeOutOfRange), w)
      else if (n_train test_size (length rows) =? 0)%Z
      then (Raise (ValueError EmptyTrainSet), w)
      else
        (Ok (select rows
               (firstn (Z.to_nat (n_train test_size (length rows)))
                  (skipn (Z.to_nat (n_test test_size (length rows)))
                     (permutation (np_global w) (length rows)))),
             select rows
               (firstn (Z.to_nat (n_test test_size (length rows)))
                  (permutation (np_global w) (length rows)))), w).
Proof. intros Hne. destruct rows; [contradiction|reflexivity]. Qed.

Lemma print_emits m w :
  print m w = (Ok tt, World (hub w) (np_global w) (py_random w) (trace w ++ [Print m])).
Proof. reflexivity. Qed.

Lemma main_ok (a : args) (w : world) c t d records :
  hf_token a = Some (String c t) ->
  hub w !! original_repo a = Some d ->
  get_split "train" d = Some records ->
  (0 <= seed a)%Z ->
  (0 < test_size a)%Q -> (test_size a < 1)%Q ->
  n_train (test_size a) (length records) <> 0%Z ->
  hub_accepts (original_repo a) (String c t) = true ->
  main a w
    = (Ok tt,
       World (<[original_repo a :=
                  [("train", select (shuffled_rows a records)
                                    (train_positions a w (length records)));
                   ("test", select (shuffled_rows a records)
                                   (test_positions a w (length records)))]]> (hub w))
             (np_global w) (Some (seed a))
             (trace w ++ [Print (LoadingOriginal (original_repo a));
                          Download (original_repo a);
                          Print (Shuffling (seed a));
                          Print (Splitting (test_size a));
                          Print (Uploading (original_repo a) (private a));
                          Upload (original_repo a) (private a) (String c t);
                          Print (UploadComplete (original_repo a))])).
Proof.
  intros Htok Hhub Htrain Hseed Hpos Hlt Hntrain Hacc.
  assert (Hne : records <> []).
  { intros ->. apply Hntrain, n_train_empty. }
  unfold main. rewrite Htok.
  erewrite bind_ok by apply print_emits. cbn beta.
  erewrite bind_ok.
  2:{ unfold load_dataset. erewrite bind_ok by reflexivity. cbn beta.
      cbn [hub]. rewrite Hhub. reflexivity. }
  cbn beta. rewrite Htrain.
  erewrite bind_ok by apply print_emits. cbn beta.
  erewrite bind_ok by reflexivity. cbn beta.
  erewrite bind_ok.
  2:{ unfold lift. rewrite (shuffle_nonempty a records Hne Hseed). reflexivity. }
  cbn beta.
  erewrite bind_ok by apply print_emits. cbn beta.
  erewrite bind_ok.
  2:{ rewrite train_test_split_nonempty by apply shuffled_rows_nonempty, Hne.
      rewrite shuffled_rows_length.
      assert (Qle_bool (test_size a) 0 = false) as ->.
      { apply not_true_is_false. rewrite Qle_bool_iff. apply Qlt_not_le, Hpos. }
      assert (Qle_bool 1 (test_size a) = false) as ->.
      { apply not_true_is_false. rewrite Qle_bool_iff. apply Qlt_not_le, Hlt. }
      cbn [orb]. apply Z.eqb_neq in Hntrain. rewrite Hntrain. reflexivity. }
  cbn beta. cbn [fst snd hub np_global py_random trace].
  fold (test_positions a w (length records)).
  fold (train_positions a w (length records)).
  erewrite bind_ok by apply print_emits. cbn beta.
  erewrite bind_ok.
  2:{ unfold push_to_hub. erewrite bind_ok by reflexivity. cbn beta.
      rewrite Hacc. reflexivity. }
  cbn beta. rewrite print_emits. cbn [hub np_global py_random trace].
  repeat rewrite <- app_assoc. reflexivity.
Qed.

(** What a successful run publishes is a function of the arguments, the
    source and the state of numpy's global generator. *)
Lemma published_ok (a : args) (w : world) c t d records :
  hf_token a = Some (String c t) ->
  hub w !! original_repo a = Some d ->
  get_split "train" d = Some records ->
  (0 <= seed a)%Z ->
  (0 < test_size a)%Q -> (test_size a < 1)%Q ->
  n_train (test_size a) (length records) <> 0%Z ->
  hub_accepts (original_repo a) (String c t) = true ->
  published a w
    = Some [("train", select (shuffled_rows a records)
                             (train_positions a w (length records)));
            ("test", select (shuffled_rows a records)
                            (test_positions a w (length records)))].
Proof.
  intros Htok Hhub Htrain Hseed Hpos Hlt Hntrain Hacc. unfold published.
  rewrite (main_ok a w c t d records Htok Hhub Htrain Hseed Hpos Hlt Hntrain Hacc).
  cbn [hub]. apply lookup_insert_eq.
Qed.

Lemma split_partition (a : args) (w : world) (records : list record) :
  (0 <= n_test (test_size a) (length records) <= Z.of_nat (length records))%Z ->
  partition_of records
    (select (shuffled_rows a records) (train_positions a w (length records)))
    (select (shuffled_rows a records) (test_positions a w (length records)))
  /\ length (select (shuffled_rows a records) (test_positions a w (length records)))
     = Z.to_nat (n_test (test_size a) (length records)).
Proof.
  intros Hrange.
  set (K := length records) in *.
  set (first := permutation (seed a) K).
  set (second := permutation (np_global w) K).
  set (nt := Z.to_nat (n_test (test_size a) K)).
  assert (Hnt : (nt <= K)%nat) by (unfold nt; lia).
  assert (Hfirst : Forall (fun i => (i < length records)%nat) first)
    by (apply perm_in_range, permutation_perm).
  assert (Htrain : train_positions a w K = skipn nt second).
  { unfold train_positions. fold second nt. apply firstn_all2.
    rewrite length_skipn. unfold second. rewrite permutation_length.
    unfold n_train. fold K. lia. }
  assert (Htest : test_positions a w K = firstn nt second) by reflexivity.
  unfold shuffled_rows. fold K first. rewrite Htrain, Htest. split.
  - exists (omap (fun k => first !! k) (skipn nt second)),
           (omap (fun k => first !! k) (firstn nt second)).
    split; [|split; apply select_select, Hfirst].
    rewrite <- omap_app.
    assert (Hsecond : Permutation (skipn nt second ++ firstn nt second) (seq 0 K)).
    { rewrite Permutation_app_comm, firstn_skipn. apply permutation_perm. }
    rewrite Hsecond.
    replace K with (length first) at 1 by apply permutation_length.
    rewrite lookup_all_positions. apply permutation_perm.
  - rewrite select_length.
    + rewrite length_firstn. unfold second. rewrite permutation_length. lia.
    + rewrite select_length by exact Hfirst. unfold first. rewrite permutation_length.
      apply Forall_take. apply perm_in_range, permutation_perm.
Qed.

Lemma partition_of_perm records train test :
  partition_of records train test -> Permutation (train ++ test) records.
Proof.
  intros (ti & te & Hperm & -> & ->). unfold select. rewrite <- omap_app.
  apply select_perm, Hperm.
Qed.

(** C4: a run that gets through publishes a [train] and a [test] split that
    divide the source train split exactly: the two are selected by index
    lists that together hold every position of the source once, so their
    concatenation is a rearrangement of the source; and the size of [test]
    is within one record of [test_size * K], that is, [|test| / K] is
    within [1 / K] of [test_size]. *)
Theorem split_partitions_exactly (a : args) (w : world) c t d records :
  hf_token a = Some (String c t) ->
  hub w !! original_repo a = Some d ->
  get_split "train" d = Some records ->
  (0 <= seed a)%Z ->
  (0 < test_size a)%Q -> (test_size a < 1)%Q ->
  n_train (test_size a) (length records) <> 0%Z ->
  (Z.of_nat (length records) < 2 ^ 53)%Z ->
  hub_accepts (original_repo a) (String c t) = true ->
  exists train test w',
    main a w = (Ok tt, w')
    /\ hub w' !! original_repo a = Some [("train", train); ("test", test)]
    /\ partition_of records train test
    /\ Permutation (train ++ test) records
    /\ (inject_Z (Z.of_nat (length test)) - 1
          < test_size a * inject_Z (Z.of_nat (length records)))%Q
    /\ (test_size a * inject_Z (Z.of_nat (length records))
          < inject_Z (Z.of_nat (length test)) + 1)%Q.
Proof.
  intros Htok Hhub Htrain Hseed Hpos Hlt Hntrain Hbig Hacc.
  destruct (n_test_bounds (test_size a) (length records) Hpos Hlt Hbig)
    as (Hrange & Hlow & Hhigh).
  destruct (split_partition a w records Hrange) as (Hpart & Hlen).
  eexists _, _, _. split; [exact (main_ok a w c t d records Htok Hhub Htrain Hseed Hpos Hlt Hntrain Hacc)|].
  cbn [hub]. split; [apply lookup_insert_eq|]. split; [exact Hpart|].
  split; [exact (partition_of_perm _ _ _ Hpart)|].
  rewrite Hlen, Z2Nat.id by lia. split; assumption.
Qed.


(** C3, amended: a run that lacks its credential, or whose source lacks a
    [train] split, ends with a [ValueError] and changes nothing on the hub.
    Without a credential it ends before anything else happens; with one,
    the missing [train] split is found after the source was downloaded,
    and the run ends there, before any upload. *)
Theorem missing_precondition_is_fatal (a : args) (w : world) :
  token_missing (hf_token a) = true \/ no_train_split a w ->
  exists why w',
    main a w = (Raise (ValueError why), w')
    /\ hub w' = hub w
    /\ (token_missing (hf_token a) = true -> why = TokenRequired /\ w' = w)
    /\ (token_missing (hf_token a) = false ->
        trace w' = trace w ++ [Print (LoadingOriginal (original_repo a));
                               Download (original_repo a)]).
Proof.
  intros Hmiss. unfold main.
  destruct (hf_token a) as [[|c t]|] eqn:Htok; cbn [token_missing] in *.
  1, 3: exists TokenRequired, w; repeat split; discriminate.
  destruct Hmiss as [Hmiss|(d & Hhub & Htrain)]; [discriminate|].
  erewrite bind_ok by apply print_emits. cbn beta.
  erewrite bind_ok.
  2:{ unfold load_dataset. erewrite bind_ok by reflexivity. cbn beta.
      cbn [hub]. rewrite Hhub. reflexivity. }
  cbn beta. rewrite Htrain. unfold raise.
  eexists _, _. split; [reflexivity|]. cbn [hub trace].
  split; [reflexivity|]. split; [discriminate|].
  intros _. now rewrite <- app_assoc.
Qed.

(** *** Further properties of the splitter *)

(** The credential [parse_args] settles on: the option when it is given,
    the environment variable otherwise. *)
Definition resolved_token (cli : command_line) (env : gmap string string) : option string :=
  match cli_hf_token cli with
  | Some t => Some t
  | None => env !! "HF_TOKEN"
  end.

(** Every way a run with a credential can go, one goal for each. *)
Ltac run_cases a w c t :=
  unfold load_dataset, push_to_hub, print, random_seed, lift, raise, emit, modify, bind;
  cbn [hub np_global py_random trace fst snd];
  destruct (hub w !! original_repo a) as [d|];
    [destruct (get_split "train" d) as [records|];
     [unfold shuffle, default_rng, train_test_split;
      destruct records as [|r1 records];
      [cbn [hub np_global py_random trace fst snd];
       destruct (hub_accepts (original_repo a) (String c t))
      |destruct (seed a <? 0)%Z;
       [|match goal with |- context [select ?rows ?idx] =>
           destruct (select rows idx) as [|r2 shuffled]
         end;
         cbn [hub np_global py_random trace fst snd];
         [destruct (hub_accepts (original_repo a) (String c t))
         |destruct (Qle_bool (test_size a) 0 || Qle_bool 1 (test_size a));
          [|match goal with |- context [(?n =? 0)%Z] => destruct (n =? 0)%Z end;
            [|cbn [hub np_global py_random trace fst snd];
              destruct (hub_accepts (original_repo a) (String c t))]]]]]|]|];
    cbn [fst snd hub np_global py_random trace].

(** X10: every upload a run makes carries the visibility the caller asked
    for ([--private], public otherwise) and a credential that is not empty:
    the [--hf_token] option when it is given, the environment variable
    [HF_TOKEN] otherwise. *)
Theorem upload_carries_flag_and_credential (cli : command_line)
    (env : gmap string string) (w : world) :
  exists evs,
    trace (snd (main (parse_args cli env) w)) = trace w ++ evs
    /\ forall repo p t, Upload repo p t ∈ evs ->
         p = cli_private cli
         /\ resolved_token cli env = Some t
         /\ t <> EmptyString.
Proof.
  set (a := parse_args cli env).
  assert (Htok : hf_token a = resolved_token cli env) by reflexivity.
  assert (Hpriv : private a = cli_private cli) by reflexivity.
  clearbody a. unfold main.
  destruct (hf_token a) as [[|c t]|].
  1, 3: exists []; cbn; rewrite app_nil_r; split; [reflexivity|];
        intros ? ? ? H; now apply elem_of_nil in H.
  run_cases a w c t;
    (eexists; split; [repeat rewrite <- app_assoc; reflexivity|]);
    intros repo p0 t0 Hin;
    repeat (apply elem_of_cons in Hin as [Hin|Hin];
            [try discriminate Hin;
             try (injection Hin as -> -> ->; rewrite <- Htok, <- Hpriv;
                  split; [reflexivity|]; split; [reflexivity|discriminate])|]);
    now apply elem_of_nil in Hin.
Qed.

(** X11: a run ends with the "token required" error exactly when the
    resolved credential is absent or empty; in particular an empty
    [--hf_token] is not replaced by the environment variable. *)
Theorem token_required_iff (cli : command_line) (env : gmap string string) (w : world) :
  fst (main (parse_args cli env) w) = Raise (ValueError TokenRequired)
  <-> token_missing (resolved_token cli env) = true.
Proof.
  set (a := parse_args cli env).
  assert (Htok : hf_token a = resolved_token cli env) by reflexivity.
  clearbody a. rewrite <- Htok. clear Htok. unfold main.
  destruct (hf_token a) as [[|c t]|]; cbn [token_missing].
  1, 3: split; reflexivity.
  run_cases a w c t; split; discriminate.
Qed.

(** X12: the hub changes only through an upload: a run that makes no
    upload, whatever stopped it, leaves every dataset on the hub as it was
    and does not end normally. *)
Theorem hub_changes_only_by_upload (a : args) (w : world) :
  exists evs,
    trace (snd (main a w)) = trace w ++ evs
    /\ ((forall repo p t, Upload repo p t ∉ evs) ->
        hub (snd (main a w)) = hub w /\ fst (main a w) <> Ok tt).
Proof.
  unfold main.
  destruct (hf_token a) as [[|c t]|].
  1, 3: exists []; cbn; rewrite app_nil_r; split; [reflexivity|];
        intros _; split; [reflexivity|discriminate].
  run_cases a w c t;
    (eexists; split; [repeat rewrite <- app_assoc; reflexivity|]);
    intros Hno;
    try (split; [reflexivity|discriminate]);
    exfalso; apply (Hno (original_repo a) (private a) (String c t));
    cbn [app]; repeat (first [apply list_elem_of_here | apply list_elem_of_further]).
Qed.

(** What a run that ends normally on a train split with records has met
    on its way. *)
Lemma main_ok_inv (a : args) (w : world) d records :
  hub w !! original_repo a = Some d ->
  get_split "train" d = Some records ->
  records <> [] ->
  fst (main a w) = Ok tt ->
  exists c t,
    hf_token a = Some (String c t)
    /\ (0 <= seed a)%Z
    /\ (0 < test_size a)%Q /\ (test_size a < 1)%Q
    /\ n_train (test_size a) (length records) <> 0%Z
    /\ hub_accepts (original_repo a) (String c t) = true.
Proof.
  intros Hhub Htrain Hne HOk. unfold main in HOk.
  destruct (hf_token a) as [[|c t]|] eqn:Htok; try discriminate HOk.
  exists c, t. split; [reflexivity|].
  unfold load_dataset, push_to_hub, print, random_seed, lift, raise, emit, modify, bind in HOk.
  cbn [hub np_global py_random trace fst snd] in HOk.
  rewrite Hhub in HOk. rewrite Htrain in HOk.
  pose proof (shuffled_rows_nonempty a records Hne) as Hsne.
  pose proof (shuffled_rows_length a records) as Hslen.
  unfold shuffled_rows in Hsne, Hslen.
  destruct records as [|r1 records]; [contradiction|].
  unfold shuffle, default_rng, train_test_split in HOk.
  destruct (seed a <? 0)%Z eqn:Hseed; [discriminate HOk|].
  apply Z.ltb_ge in Hseed. split; [exact Hseed|].
  destruct (select (r1 :: records) (permutation (seed a) (length (r1 :: records))))
    as [|r2 shuffled]; [contradiction|].
  cbn [hub np_global py_random trace fst snd] in HOk.
  destruct (Qle_bool (test_size a) 0 || Qle_bool 1 (test_size a)) eqn:Hrange;
    [discriminate HOk|].
  apply orb_false_elim in Hrange as [H0 H1].
  split; [apply Qnot_le_lt; intros H; apply Qle_bool_iff in H; congruence|].
  split; [apply Qnot_le_lt; intros H; apply Qle_bool_iff in H; congruence|].
  rewrite Hslen in HOk.
  destruct (n_train (test_size a) (length (r1 :: records)) =? 0)%Z eqn:Hn;
    [discriminate HOk|].
  apply Z.eqb_neq in Hn. split; [exact Hn|].
  cbn [hub np_global py_random trace fst snd] in HOk.
  destruct (hub_accepts (original_repo a) (String c t)); [reflexivity|discriminate HOk].
Qed.

(** X13: a run on a source train split of [K > 0] records that ends
    normally has published a [train] split that is not empty and a [test]
    split of exactly [ceil(test_size * K)] records, and the two sizes add up
    to [K]. *)
Theorem published_sizes (a : args) (w : world) d records :
  hub w !! original_repo a = Some d ->
  get_split "train" d = Some records ->
  records <> [] ->
  (Z.of_nat (length records) < 2 ^ 53)%Z ->
  fst (main a w) = Ok tt ->
  exists train test,
    published a w = Some [("train", train); ("test", test)]
    /\ (length train + length test = length records)%nat
    /\ (1 <= length train)%nat
    /\ Z.of_nat (length test) = n_test (test_size a) (length records).
Proof.
  intros Hhub Htrain Hne Hbig HOk.
  destruct (main_ok_inv a w d records Hhub Htrain Hne HOk)
    as (c & t & Htok & Hseed & Hpos & Hlt & Hntrain & Hacc).
  destruct (n_test_bounds (test_size a) (length records) Hpos Hlt Hbig) as (Hrange & _).
  destruct (split_partition a w records Hrange) as (Hpart & Hlen).
  eexists _, _.
  split; [exact (published_ok a w c t d records Htok Hhub Htrain Hseed Hpos Hlt Hntrain Hacc)|].
  pose proof (Permutation_length (partition_of_perm _ _ _ Hpart)) as Hsum.
  rewrite length_app in Hsum. unfold n_train in Hntrain.
  split; [exact Hsum|]. split; [lia|]. lia.
Qed.

(** X14: with a credential and a [train] split in the source.  When the
    split has records, a [test_size] outside the open interval from 0 to 1
    ends the run with a [ValueError] after the download and the seeded
    shuffle, before any upload.  When the split has no record, nothing is
    checked: whatever [test_size] and the seed are, the run uploads a
    dataset of two empty splits over the source. *)
Theorem degenerate_split_requests (a : args) (w : world) c t d records :
  hf_token a = Some (String c t) ->
  hub w !! original_repo a = Some d ->
  get_split "train" d = Some records ->
  (records <> [] -> (0 <= seed a)%Z ->
   (test_size a <= 0)%Q \/ (1 <= test_size a)%Q ->
   main a w
     = (Raise (ValueError TestSizeOutOfRange),
        World (hub w) (np_global w) (Some (seed a))
              (trace w ++ [Print (LoadingOriginal (original_repo a));
                           Download (original_repo a);
                           Print (Shuffling (seed a));
                           Print (Splitting (test_size a))])))
  /\ (records = [] -> hub_accepts (original_repo a) (String c t) = true ->
      main a w
        = (Ok tt,
           World (<[original_repo a := [("train", []); ("test", [])]]> (hub w))
                 (np_global w) (Some (seed a))
                 (trace w ++ [Print (LoadingOriginal (original_repo a));
                              Download (original_repo a);
                              Print (Shuffling (seed a));
                              Print (Splitting (test_size a));
                              Print (Uploading (original_repo a) (private a));
                              Upload (original_repo a) (private a) (String c t);
                              Print (UploadComplete (original_repo a))]))).
Proof.
  intros Htok Hhub Htrain.
  split.
  - intros Hne Hseed Hbad.
    unfold main. rewrite Htok.
    erewrite bind_ok by apply print_emits. cbn beta.
    erewrite bind_ok.
    2:{ unfold load_dataset. erewrite bind_ok by reflexivity. cbn beta.
        cbn [hub]. rewrite Hhub. reflexivity. }
    cbn beta. rewrite Htrain.
    erewrite bind_ok by apply print_emits. cbn beta.
    erewrite bind_ok by reflexivity. cbn beta.
    erewrite bind_ok.
    2:{ unfold lift. rewrite (shuffle_nonempty a records Hne Hseed). reflexivity. }
    cbn beta.
    erewrite bind_ok by apply print_emits. cbn beta.
    cbn [hub np_global py_random trace].
    erewrite bind_raise; cycle 1.
    { rewrite train_test_split_nonempty by apply shuffled_rows_nonempty, Hne.
      assert (Qle_bool (test_size a) 0 || Qle_bool 1 (test_size a) = true) as ->.
      { apply orb_true_iff. destruct Hbad as [H|H]; [left|right]; now apply Qle_bool_iff. }
      reflexivity. }
    repeat rewrite <- app_assoc. reflexivity.
  - intros -> Hacc.
    unfold main. rewrite Htok.
    erewrite bind_ok by apply print_emits. cbn beta.
    erewrite bind_ok.
    2:{ unfold load_dataset. erewrite bind_ok by reflexivity. cbn beta.
        cbn [hub]. rewrite Hhub. reflexivity. }
    cbn beta. rewrite Htrain.
    erewrite bind_ok by apply print_emits. cbn beta.
    erewrite bind_ok by reflexivity. cbn beta.
    erewrite bind_ok by reflexivity. cbn beta.
    erewrite bind_ok by apply print_emits. cbn beta.
    erewrite bind_ok by reflexivity. cbn beta.
    cbn [fst snd hub np_global py_random trace].
    erewrite bind_ok by apply print_emits. cbn beta.
    erewrite bind_ok.
    2:{ unfold push_to_hub. erewrite bind_ok by reflexivity. cbn beta.
        rewrite Hacc. reflexivity. }
    cbn beta. rewrite print_emits. cbn [hub np_global py_random trace].
    repeat rewrite <- app_assoc. reflexivity.
Qed.

End WithLibraries.

Arguments World {record} hub np_global py_random trace.
Arguments hub {record} w.
Arguments np_global {record} w.
Arguments py_random {record} w.
Arguments trace {record} w.

(** *** The stand-ins meet the contracts *)

Lemma remove_nth_perm {A} (pool : list A) : forall i p,
  pool !! i = Some p ->
  Permutation (p :: remove_nth i pool) pool
  /\ S (length (remove_nth i pool)) = length pool.
Proof.
  induction pool as [|x pool IH]; intros i p Hi; [now rewrite lookup_nil in Hi|].
  destruct i as [|i]; cbn in Hi.
  - injection Hi as ->. cbn. auto.
  - destruct (IH i p Hi) as [Hperm Hlen]. cbn. split; [|now rewrite Hlen].
    rewrite perm_swap. now apply perm_skip.
Qed.

Lemma draw_perm fuel : forall x pool,
  length pool = fuel -> Permutation (draw fuel x pool) pool.
Proof.
  induction fuel as [|fuel IH]; intros x pool Hlen.
  - destruct pool; [constructor | discriminate].
  - cbn [draw].
    assert (Hi : (Z.to_nat (x mod Z.of_nat (length pool)) < length pool)%nat).
    { pose proof (Z.mod_pos_bound x (Z.of_nat (length pool))). lia. }
    destruct (lookup_lt_is_Some_2 pool _ Hi) as [p Hp]. rewrite Hp.
    destruct (remove_nth_perm pool _ p Hp) as [Hperm Hl].
    apply Permutation_trans with (p :: remove_nth (Z.to_nat (x mod Z.of_nat (length pool))) pool);
      [apply perm_skip, IH; lia | exact Hperm].
Qed.

Lemma lcg_permutation_perm seed n : Permutation (lcg_permutation seed n) (seq 0 n).
Proof. apply draw_perm, length_seq. Qed.

Lemma exact_mono x y : (x <= y)%Q -> (exact x <= exact y)%Q.
Proof. exact (fun H => H). Qed.

Lemma exact_int z : (Z.abs z <= 2 ^ 53)%Z -> (exact (inject_Z z) == inject_Z z)%Q.
Proof. intros _. reflexivity. Qed.

(** *** Runs on the scenario of the specification *)

Definition open_hub (repo token : string) : bool := true.

Definition scenario_args : args :=
  parse_args (CommandLine (Some "user/olympic") (Some (1 # 2)) (Some "hf_token") (Some 42%Z) false) ∅.

Definition scenario_hub (train : list string) : gmap string (list (string * list string)) :=
  {["user/olympic" := [("train", train)]]}.

(** One process: the same command line and the same hub, and whatever
    numpy's global generator was seeded with when the process started. *)
Definition process (train : list string) (np_word : Z) : world string :=
  World (scenario_hub train) np_word None [].

Definition run (a : args) (w : world string) : result unit * world string :=
  main string lcg_permutation exact open_hub a w.

Definition published_by (train : list string) (np_word : Z)
    : option (list (string * list string)) :=
  published string lcg_permutation exact open_hub scenario_args (process train np_word).

Definition no_train_world : world string :=
  World {["user/olympic" := [("validation", ["2+2?"; "3+3?"])]]} 0 None [].

Example scenario_run :
  run scenario_args (process ["2+2?"; "3+3?"] 0)
    = (Ok tt,
       World {["user/olympic" := [("train", ["3+3?"]); ("test", ["2+2?"])]]} 0 (Some 42%Z)
             [Print (LoadingOriginal "user/olympic"); Download "user/olympic";
              Print (Shuffling 42); Print (Splitting (1 # 2));
              Print (Uploading "user/olympic" false);
              Upload "user/olympic" false "hf_token";
              Print (UploadComplete "user/olympic")]).
Proof. vm_compute. reflexivity. Qed.

(** C1, at a failing input: two processes given the same command line
    (seed 42) and the same source data, started with different states of
    numpy's global generator, publish different partitions. *)
Theorem same_seed_runs_disagree :
  seed scenario_args = 42%Z
  /\ hub (process ["2+2?"; "3+3?"] 0) = hub (process ["2+2?"; "3+3?"] 1)
  /\ published_by ["2+2?"; "3+3?"] 0 = Some [("train", ["3+3?"]); ("test", ["2+2?"])]
  /\ published_by ["2+2?"; "3+3?"] 1 = Some [("train", ["2+2?"]); ("test", ["3+3?"])].
Proof. repeat split; vm_compute; reflexivity. Qed.

(** C2, at a failing input: with seed 42 the shuffled sequence of four
    records is q3 q2 q1 q0; the published test split holds q1 and q3, which
    are not neighbours in it. *)
Theorem test_split_not_contiguous :
  shuffled_rows string lcg_permutation scenario_args ["q0"; "q1"; "q2"; "q3"]
    = ["q3"; "q2"; "q1"; "q0"]
  /\ published_by ["q0"; "q1"; "q2"; "q3"] 1
     = Some [("train", ["q2"; "q0"]); ("test", ["q1"; "q3"])]
  /\ ~ contiguous_fraction string ["q3"; "q2"; "q1"; "q0"] ["q2"; "q0"] ["q1"; "q3"].
Proof.
  split; [vm_compute; reflexivity|]. split; [vm_compute; reflexivity|].
  intros (before & middle & after & Hs & Hm & _).
  pose proof (Permutation_length Hm) as Hlen. cbn in Hlen.
  assert (Hq1 : In "q1" middle)
    by (apply (Permutation_in _ (Permutation_sym Hm)); cbn; auto).
  assert (Hq3 : In "q3" middle)
    by (apply (Permutation_in _ (Permutation_sym Hm)); cbn; auto).
  destruct middle as [|m0 [|m1 [|]]]; try discriminate Hlen.
  destruct before as [|b0 [|b1 [|b2 [|b3 [|]]]]]; cbn in Hs;
    try discriminate Hs; injection Hs; intros; subst;
    cbn in Hq1, Hq3; intuition discriminate.
Qed.

(** C3, as stated, fails: the source has no [train] split, the run fails,
    and by then it has downloaded the source. *)
Lemma no_train_abort_follows_download :
  ~ aborts_before_any_io string lcg_permutation exact open_hub scenario_args no_train_world.
Proof.
  intros H. destruct H as [_ Hio].
  - right. eexists. split; reflexivity.
  - vm_compute in Hio. discriminate Hio.
Qed.

Example no_train_run :
  run scenario_args no_train_world
    = (Raise (ValueError (NoTrainSplit ["validation"])),
       World (hub no_train_world) 0 None
             [Print (LoadingOriginal "user/olympic"); Download "user/olympic"]).
Proof. vm_compute. reflexivity. Qed.

Lemma missing_precondition_is_fatal_witness :
  exists why w',
    run scenario_args no_train_world = (Raise (ValueError why), w')
    /\ hub w' = hub no_train_world
    /\ (token_missing (hf_token scenario_args) = true ->
        why = TokenRequired /\ w' = no_train_world)
    /\ (token_missing (hf_token scenario_args) = false ->
        trace w' = trace no_train_world
                   ++ [Print (LoadingOriginal (original_repo scenario_args));
                       Download (original_repo scenario_args)]).
Proof.
  apply (missing_precondition_is_fatal string lcg_permutation exact open_hub
           scenario_args no_train_world).
  right. eexists. split; reflexivity.
Defined.

Lemma split_partitions_exactly_witness :
  exists train test w',
    run scenario_args (process ["2+2?"; "3+3?"] 0) = (Ok tt, w')
    /\ hub w' !! original_repo scenario_args = Some [("train", train); ("test", test)]
    /\ partition_of string ["2+2?"; "3+3?"] train test
    /\ Permutation (train ++ test) ["2+2?"; "3+3?"]
    /\ (inject_Z (Z.of_nat (length test)) - 1 < test_size scenario_args * inject_Z 2)%Q
    /\ (test_size scenario_args * inject_Z 2 < inject_Z (Z.of_nat (length test)) + 1)%Q.
Proof.
  apply (split_partitions_exactly string lcg_permutation lcg_permutation_perm
           exact exact_mono exact_int open_hub scenario_args
           (process ["2+2?"; "3+3?"] 0) "h"%char "f_token"
           [("train", ["2+2?"; "3+3?"])] ["2+2?"; "3+3?"]).
  - reflexivity.
  - reflexivity.
  - reflexivity.
  - cbn. lia.
  - reflexivity.
  - reflexivity.
  - vm_compute. discriminate.
  - cbn. lia.
  - reflexivity.
Defined.

Example empty_token_ignores_environment :
  fst (run (parse_args (CommandLine None None (Some EmptyString) None false)
                       {["HF_TOKEN" := "hf_from_env"]})
           (process ["2+2?"; "3+3?"] 0))
    = Raise (ValueError TokenRequired).
Proof. vm_compute. reflexivity. Qed.

Example environment_token_is_uploaded :
  trace (snd (run (parse_args (CommandLine (Some "user/olympic") (Some (1 # 2)) None None true)
                              {["HF_TOKEN" := "hf_from_env"]})
                  (process ["2+2?"; "3+3?"] 0)))
    = [Print (LoadingOriginal "user/olympic"); Download "user/olympic";
       Print (Shuffling 42); Print (Splitting (1 # 2));
       Print (Uploading "user/olympic" true);
       Upload "user/olympic" true "hf_from_env";
       Print (UploadComplete "user/olympic")].
Proof. vm_compute. reflexivity. Qed.

Lemma published_sizes_witness :
  exists train test,
    published_by ["2+2?"; "3+3?"] 0 = Some [("train", train); ("test", test)]
    /\ (length train + length test = 2)%nat
    /\ (1 <= length train)%nat
    /\ Z.of_nat (length test) = n_test exact (test_size scenario_args) 2.
Proof.
  apply (published_sizes string lcg_permutation lcg_permutation_perm
           exact exact_mono exact_int open_hub scenario_args
           (process ["2+2?"; "3+3?"] 0)
           [("train", ["2+2?"; "3+3?"])] ["2+2?"; "3+3?"]).
  - reflexivity.
  - reflexivity.
  - discriminate.
  - cbn. lia.
  - vm_compute. reflexivity.
Defined.

(** A [test_size] of 3/2 on two records, and a train split without records
    with that same [test_size]. *)
Definition oversized_args : args :=
  parse_args (CommandLine (Some "user/olympic") (Some (3 # 2)) (Some "hf_token") (Some 42%Z) false) ∅.

Lemma degenerate_split_requests_witness :
  run oversized_args (process ["2+2?"; "3+3?"] 0)
    = (Raise (ValueError TestSizeOutOfRange),
       World (scenario_hub ["2+2?"; "3+3?"]) 0 (Some 42%Z)
             ([] ++ [Print (LoadingOriginal "user/olympic"); Download "user/olympic";
                     Print (Shuffling 42); Print (Splitting (3 # 2))]))
  /\ run oversized_args (process [] 0)
     = (Ok tt,
        World (<["user/olympic" := [("train", []); ("test", [])]]> (scenario_hub [])) 0
              (Some 42%Z)
              ([] ++ [Print (LoadingOriginal "user/olympic"); Download "user/olympic";
                      Print (Shuffling 42); Print (Splitting (3 # 2));
                      Print (Uploading "user/olympic" false);
                      Upload "user/olympic" false "hf_token";
                      Print (UploadComplete "user/olympic")])).
Proof.
  split.
  - apply (degenerate_split_requests string lcg_permutation lcg_permutation_perm
             exact open_hub oversized_args
             (process ["2+2?"; "3+3?"] 0) "h"%char "f_token"
             [("train", ["2+2?"; "3+3?"])] ["2+2?"; "3+3?"]).
    + reflexivity.
    + reflexivity.
    + reflexivity.
    + discriminate.
    + cbn. lia.
    + right. vm_compute. discriminate.
  - apply (degenerate_split_requests string lcg_permutation lcg_permutation_perm
             exact open_hub oversized_args
             (process [] 0) "h"%char "f_token" [("train", [])] []);
      reflexivity.
Defined.

End Splitter.
